(** * WaferDetector: the detection cascade of [wafer-detection.js]

    A shallow embedding of the [WaferDetector] class: the instant template
    gate, the ORB + RANSAC fallback, the hit smoother and the pass latch of
    [_startDetectionLoop], the session operations [startDetection] and
    [stopDetection], and the two reference loaders.

    JavaScript numbers are IEEE 754 binary64 values; they are modelled by
    [spec_float] with the operations of the standard library's [SpecFloat]
    at precision 53.  Values produced by [parseInt] are integers or NaN and
    are modelled by [option Z].  OpenCV.js is an external library: its
    operations are the fields of the class [OpenCV], and a call that can
    throw returns an [option].

    Left out: the drawing of the live feed, the status line and the
    buttons, the console, and the release of native matrices. *)

From Stdlib Require Import ZArith String List Bool Lia SpecFloat Permutation.
Import ListNotations.
Local Open Scope Z_scope.

(** ** JavaScript numbers *)

Module Js.

Definition float := spec_float.

Definition prec : Z := 53.
Definition emax : Z := 1024.

Definition of_Z (z : Z) : float := binary_normalize prec emax z 0 false.
Definition fmul : float -> float -> float := SFmul prec emax.
Definition fsub : float -> float -> float := SFsub prec emax.
Definition fdiv : float -> float -> float := SFdiv prec emax.

(** [a < b] and [a >= b] on numbers; both are false when an operand is NaN. *)
Definition flt (a b : float) : bool := SFltb a b.
Definition fge (a b : float) : bool := SFleb b a.

(** A decimal literal [n / 10^k] such as [0.55]: the nearest double. *)
Definition decimal (n : Z) (k : positive) : float :=
  fdiv (of_Z n) (of_Z (Z.pow 10 (Z.pos k))).

(** The result of [parseInt]: an integer, or NaN ([None]). *)
Definition num := option Z.

Definition lt_num (a : Z) (b : num) : bool :=
  match b with Some z => a <? z | None => false end.
Definition gt_num (a : Z) (b : num) : bool :=
  match b with Some z => a >? z | None => false end.
Definition ge_num (a : Z) (b : num) : bool :=
  match b with Some z => a >=? z | None => false end.

(** Truthiness of a number-or-null: [null], [0] and NaN are falsy. *)
Definition truthy (t : option float) : bool :=
  match t with
  | Some (S754_finite _ _ _) | Some (S754_infinity _) => true
  | _ => false
  end.

End Js.
Import Js.

(** ** Data *)

Record KeyPoint := { pt_x : float; pt_y : float }.

Record DMatch := { queryIdx : nat; trainIdx : nat; distance : float }.

(** The tunables set in the constructor.  [CONF_RATIO], [MIN_GOOD_MATCHES],
    [MIN_INLIERS] and [SMOOTH_N] are overwritten from the page's inputs by
    [updateSettings]. *)
Record Config := {
  INSTANT_TEMPLATE : bool;
  TMPL_SIZE : Z;
  TMPL_THR : float;
  EDGE_TMPL : bool;
  CONF_RATIO : float;
  MIN_GOOD_MATCHES : num;
  MIN_INLIERS : num;
  SMOOTH_N : num;
  SHOW_DEBUG : bool;
  EXIT_ON_PASS : bool;
  PASS_HOLD_MS : float;
  PROC_W : Z;
  PROC_H : Z
}.

Definition default_config : Config := {|
  INSTANT_TEMPLATE := true;
  TMPL_SIZE := 96;
  TMPL_THR := decimal 55 2;
  EDGE_TMPL := false;
  CONF_RATIO := decimal 90 2;
  MIN_GOOD_MATCHES := Some 3;
  MIN_INLIERS := Some 6;
  SMOOTH_N := Some 5;
  SHOW_DEBUG := true;
  EXIT_ON_PASS := false;
  PASS_HOLD_MS := of_Z 1000;
  PROC_W := 320;
  PROC_H := 240
|}.

(** ** The OpenCV.js interface

    What the detector calls on [cv], on the ORB detector and on the
    brute-force matcher.  [resize], [detectAndCompute], [findHomography]
    and [perspectiveTransform] return [None] when the call throws, and
    [allocMat] is [false] when the constructor throws. *)

Class OpenCV := {
  (** a [cv.Mat] holding a gray or edge image *)
  Mat : Type;
  (** one row of an ORB descriptor matrix: [des.rows] is the length of the list *)
  Descriptor : Type;
  (** the matrix returned by [cv.findHomography] *)
  Homography : Type;
  (** [cv.Canny(src, dst, 50, 150, 3, false)] *)
  Canny : Mat -> Mat;
  (** [cv.resize(src, dst, new cv.Size(s, s), 0, 0, cv.INTER_AREA)] *)
  resize : Mat -> Z -> option Mat;
  (** [new cv.Mat(rows, cols, cv.CV_32FC1)] *)
  allocMat : Z -> Z -> bool;
  (** [cv.matchTemplate(src, tmpl, res, cv.TM_CCOEFF_NORMED)] followed by
      [cv.minMaxLoc(res).maxVal] *)
  matchTemplate_maxVal : Mat -> Mat -> float;
  (** [detector.detectAndCompute(gray, new cv.Mat(), kp, des)] *)
  detectAndCompute : Mat -> option (list KeyPoint * list Descriptor);
  (** [matcher.knnMatch(queryDes, trainDes, matches, 2)] *)
  knnMatch : list Descriptor -> list Descriptor -> list (list DMatch);
  (** [cv.findHomography(src, dst, cv.RANSAC, 5.0, mask)]: the matrix and the mask *)
  findHomography : list float -> list float -> option (Homography * list Z);
  (** [H.empty()] *)
  H_empty : Homography -> bool;
  (** [cv.perspectiveTransform(corners, quad, H)], read back as [quad.data32F] *)
  perspectiveTransform : list float -> Homography -> option (list float)
}.

(** [cv.countNonZero(mask)] *)
Definition countNonZero (mask : list Z) : Z :=
  Z.of_nat (length (filter (fun b => negb (b =? 0)) mask)).

Section Detector.

Context {cv : OpenCV}.

(** An entry of [this.refs]: [{name, kp, des, corners, tmpl, res, dataUrl}].
    [res] is the preallocated response buffer, kept as its (rows, cols). *)
Record Ref := {
  name : string;
  kp : list KeyPoint;
  des : list Descriptor;
  corners : list float;
  tmpl : option Mat;
  res : option (Z * Z);
  dataUrl : string
}.

(** *** Instant template gate (lines 410-423) *)

(** The body of the loop over [this.refs]: [templateHit] is only ever set. *)
Fixpoint gate_loop (thr : float) (src : Mat) (refs : list Ref) (templateHit : bool)
  : bool :=
  match refs with
  | [] => templateHit
  | ref :: rest =>
      match tmpl ref, res ref with
      | Some t, Some _ =>
          let maxVal := matchTemplate_maxVal src t in
          gate_loop thr src rest (if fge maxVal thr then true else templateHit)
      | _, _ => gate_loop thr src rest templateHit
      end
  end.

Definition template_gate (cfg : Config) (refs : list Ref) (frameGray : Mat) : bool :=
  if INSTANT_TEMPLATE cfg then
    let srcForMatch := if EDGE_TMPL cfg then Canny frameGray else frameGray in
    gate_loop (TMPL_THR cfg) srcForMatch refs false
  else false.

(** *** ORB fallback (lines 425-487) *)

(** The ratio test over the k-nearest-neighbour matches (lines 438-445). *)
Fixpoint ratio_test (ratio : float) (matches : list (list DMatch)) : list DMatch :=
  match matches with
  | [] => []
  | mv :: rest =>
      match mv with
      | [m; n] =>
          if flt (distance m) (fmul ratio (distance n))
          then m :: ratio_test ratio rest
          else ratio_test ratio rest
      | _ => ratio_test ratio rest
      end
  end.

(** The point arrays (lines 450-458): [x, y] interleaved.  A match whose
    index is outside a keypoint vector makes [get] return [undefined] and
    the access to [pt] throw. *)
Fixpoint build_points (refKp frameKp : list KeyPoint) (good : list DMatch)
  : option (list float * list float) :=
  match good with
  | [] => Some ([], [])
  | g :: rest =>
      match nth_error refKp (queryIdx g), nth_error frameKp (trainIdx g) with
      | Some rk, Some fk =>
          match build_points refKp frameKp rest with
          | Some (srcPts, dstPts) =>
              Some (pt_x rk :: pt_y rk :: srcPts, pt_x fk :: pt_y fk :: dstPts)
          | None => None
          end
      | _, _ => None
      end
  end.

(** The running best of the loop over references. *)
Record Best := { bestInliers : Z; bestQuad : option (list float) }.

Definition Best0 : Best := {| bestInliers := 0; bestQuad := None |}.

(** The [try { ... } catch {}] around the homography fit (lines 463-479). *)
Definition fit_reference (cfg : Config) (ref : Ref) (srcPts dstPts : list float)
  (b : Best) : Best :=
  match findHomography srcPts dstPts with
  | None => b
  | Some (H, mask) =>
      if H_empty H then b
      else
        let inliers := countNonZero mask in
        if inliers >? bestInliers b then
          if SHOW_DEBUG cfg then
            match perspectiveTransform (corners ref) H with
            | Some quad => {| bestInliers := inliers; bestQuad := Some quad |}
            | None => {| bestInliers := inliers; bestQuad := bestQuad b |}
            end
          else {| bestInliers := inliers; bestQuad := bestQuad b |}
        else b
  end.

Inductive Flow := Continue | Break.

(** One iteration of the loop over references (lines 433-483).  [None]
    is an exception that leaves the loop. *)
Definition eval_reference (cfg : Config) (frameKp : list KeyPoint)
  (desFrame : list Descriptor) (ref : Ref) (b : Best) : option (Best * Flow) :=
  let matches := knnMatch (des ref) desFrame in
  let good := ratio_test (CONF_RATIO cfg) matches in
  if lt_num (Z.of_nat (length good)) (MIN_GOOD_MATCHES cfg) then Some (b, Continue)
  else
    match build_points (kp ref) frameKp good with
    | None => None
    | Some (srcPts, dstPts) =>
        let b' := fit_reference cfg ref srcPts dstPts b in
        Some (b', if ge_num (bestInliers b') (MIN_INLIERS cfg) then Break else Continue)
    end.

Fixpoint fallback_loop (cfg : Config) (frameKp : list KeyPoint)
  (desFrame : list Descriptor) (refs : list Ref) (b : Best) : option Best :=
  match refs with
  | [] => Some b
  | ref :: rest =>
      match eval_reference cfg frameKp desFrame ref b with
      | None => None
      | Some (b', Break) => Some b'
      | Some (b', Continue) => fallback_loop cfg frameKp desFrame rest b'
      end
  end.

(** Lines 427-484: features of the frame, then the loop when the frame
    has at least 8 descriptors. *)
Definition orb_fallback (cfg : Config) (refs : list Ref) (frameGray : Mat)
  : option Best :=
  match detectAndCompute frameGray with
  | None => None
  | Some (kpFrame, desFrame) =>
      if Z.of_nat (length desFrame) >=? 8
      then fallback_loop cfg kpFrame desFrame refs Best0
      else Some Best0
  end.

(** *** One detection cycle up to the presence flag (lines 405-487) *)

Record Detection := {
  templateHit : bool;
  best : Best;
  waferPresent : bool
}.

Definition detect (cfg : Config) (refs : list Ref) (frameGray : Mat)
  : option Detection :=
  let waferPresent0 := false in
  let templateHit := template_gate cfg refs frameGray in
  if negb waferPresent0 then
    match orb_fallback cfg refs frameGray with
    | None => None
    | Some b =>
        Some {| templateHit := templateHit;
                best := b;
                waferPresent :=
                  templateHit && ge_num (bestInliers b) (MIN_INLIERS cfg) |}
    end
  else
    Some {| templateHit := templateHit; best := Best0; waferPresent := waferPresent0 |}.

(** *** Decision smoother (lines 489-492) *)

(** [this.hits.push(hit); if (this.hits.length > N) this.hits.shift();] *)
Definition push_hit (N : num) (hits : list bool) (hit : bool) : list bool :=
  let pushed := hits ++ [hit] in
  if gt_num (Z.of_nat (length pushed)) N then tl pushed else pushed.

(** [this.hits.some(Boolean)] *)
Definition some_hit (hits : list bool) : bool := existsb (fun b => b) hits.

(** The smoother run from a given window over a sequence of pushes: the
    debounced output of every push, in order. *)
Fixpoint smoother (N : num) (hits : list bool) (inputs : list bool) : list bool :=
  match inputs with
  | [] => []
  | x :: rest =>
      let hits' := push_hit N hits x in
      some_hit hits' :: smoother N hits' rest
  end.

(** *** The session *)

Record Session := {
  config : Config;
  refs : list Ref;
  hits : list bool;
  passed : bool;
  passStartedAt : option float;
  isRunning : bool;
  lastQuad : option (list float);
  (** the text of the [output] element *)
  output : string;
  (** [lastTS], local to [_startDetectionLoop] *)
  lastTS : float
}.

(** [stopDetection] (lines 329-340). *)
Definition stopDetection (s : Session) : Session :=
  {| config := config s; refs := refs s; hits := hits s; passed := passed s;
     passStartedAt := passStartedAt s;
     isRunning := false;
     lastQuad := None;
     output := "0";
     lastTS := lastTS s |}.

(** The values read from the page by [updateSettings]; [None] when the
    input element is absent. *)
Record Inputs := {
  confRatio : option float;
  minGoodMatches : option num;
  minInliers : option num;
  smoothFrames : option num
}.

Definition updateSettings (ui : Inputs) (c : Config) : Config :=
  {| INSTANT_TEMPLATE := INSTANT_TEMPLATE c; TMPL_SIZE := TMPL_SIZE c;
     TMPL_THR := TMPL_THR c; EDGE_TMPL := EDGE_TMPL c;
     CONF_RATIO := match confRatio ui with Some v => v | None => CONF_RATIO c end;
     MIN_GOOD_MATCHES :=
       match minGoodMatches ui with Some v => v | None => MIN_GOOD_MATCHES c end;
     MIN_INLIERS := match minInliers ui with Some v => v | None => MIN_INLIERS c end;
     SMOOTH_N := match smoothFrames ui with Some v => v | None => SMOOTH_N c end;
     SHOW_DEBUG := SHOW_DEBUG c; EXIT_ON_PASS := EXIT_ON_PASS c;
     PASS_HOLD_MS := PASS_HOLD_MS c; PROC_W := PROC_W c; PROC_H := PROC_H c |}.

(** [startDetection] (lines 298-327) up to the first call of the loop;
    [camera] tells whether [getUserMedia] delivered a stream. *)
Definition startDetection (s : Session) (camera : bool) (ui : Inputs) : Session :=
  match refs s with
  | [] => s
  | _ :: _ =>
      if camera then
        {| config := updateSettings ui (config s); refs := refs s;
           hits := [];
           passed := false;
           passStartedAt := None;
           isRunning := true;
           lastQuad := None;
           output := output s;
           lastTS := of_Z 0 |}
      else s
  end.

(** The body of the [try] of the loop (lines 393-517).  [now1] and [now2]
    are the two readings of [performance.now()]. *)
Definition cycle (s : Session) (frameGray : Mat) (now1 now2 : float) : Session :=
  let cfg := config s in
  match detect cfg (refs s) frameGray with
  | None => s
  | Some d =>
      let hits' := push_hit (SMOOTH_N cfg) (hits s) (waferPresent d) in
      let decided := some_hit hits' in
      let enter := decided && negb (passed s) in
      let passed' := if enter then true else passed s in
      let started' := if enter then Some now1 else passStartedAt s in
      let lastQuad' :=
        match bestQuad (best d) with
        | Some q => if SHOW_DEBUG cfg && negb passed' then Some q else None
        | None => None
        end in
      let s' :=
        {| config := cfg; refs := refs s; hits := hits'; passed := passed';
           passStartedAt := started'; isRunning := isRunning s;
           lastQuad := lastQuad';
           output := if decided || passed' then "1" else "0";
           lastTS := lastTS s |} in
      if EXIT_ON_PASS cfg && passed' && truthy started' then
        match started' with
        | Some t0 =>
            if fge (fsub now2 t0) (PASS_HOLD_MS cfg) then stopDetection s' else s'
        | None => s'
        end
      else s'
  end.

(** [1000 / 30] *)
Definition targetDelta : float := fdiv (of_Z 1000) (of_Z 30).

(** One call of [loop(ts)] (lines 388-520). *)
Definition loop (s : Session) (ts : float) (frameGray : Mat) (now1 now2 : float)
  : Session :=
  if negb (isRunning s) then s
  else if flt (fsub ts (lastTS s)) targetDelta then s
  else
    cycle {| config := config s; refs := refs s; hits := hits s; passed := passed s;
             passStartedAt := passStartedAt s; isRunning := isRunning s;
             lastQuad := lastQuad s; output := output s; lastTS := ts |}
          frameGray now1 now2.

(** What can happen to a session after it has started. *)
Inductive Event :=
| Tick (ts : float) (frameGray : Mat) (now1 now2 : float)
| Stop.

Definition step (s : Session) (e : Event) : Session :=
  match e with
  | Tick ts frameGray now1 now2 => loop s ts frameGray now1 now2
  | Stop => stopDetection s
  end.

Definition run (s : Session) (events : list Event) : Session :=
  fold_left step events s.

(** *** Reference images (lines 119-295) *)

(** A decoded image drawn on its canvas: the size, the gray matrix after
    [cvtColor] and the data URL of the canvas. *)
Record Picture := {
  width : Z;
  height : Z;
  gray : Mat;
  pic_dataUrl : string
}.

(** A reference file: [picture] is [None] when [img.onerror] fires. *)
Record ImageFile := { file_name : string; picture : option Picture }.

Inductive Built :=
| Weak
| Threw
| Usable (r : Ref).

(** The body of [img.onload], the same in both loaders (lines 153-201 and
    244-289).  [des] is a fresh matrix, so [!des] is false and the weak
    test is [des.rows < 8].  After the weak test the handler can still
    throw, in [cv.resize] and in the allocation of the response buffer, of
    which only the (rows, cols) are kept; after the resize the template is
    [TMPL_SIZE] square. *)
Definition build_ref (cfg : Config) (nm : string) (p : Picture) : Built :=
  match detectAndCompute (gray p) with
  | None => Threw
  | Some (kps, descs) =>
      if Z.of_nat (length descs) <? 8 then Weak
      else
        let w := of_Z (width p) in
        let h := of_Z (height p) in
        match resize (gray p) (TMPL_SIZE cfg) with
        | None => Threw
        | Some resized =>
            let t := if EDGE_TMPL cfg then Canny resized else resized in
            let resW := PROC_W cfg - TMPL_SIZE cfg + 1 in
            let resH := PROC_H cfg - TMPL_SIZE cfg + 1 in
            if allocMat resH resW then
              Usable {| name := nm; kp := kps; des := descs;
                        corners := [of_Z 0; of_Z 0; w; of_Z 0; w; h; of_Z 0; h];
                        tmpl := Some t; res := Some (resH, resW);
                        dataUrl := pic_dataUrl p |}
            else Threw
        end
  end.

(** [_loadRefFromPath]: the promise always resolves, to a reference or [null]. *)
Definition _loadRefFromPath (cfg : Config) (f : ImageFile) : option Ref :=
  match picture f with
  | None => None
  | Some p =>
      match build_ref cfg (file_name f) p with
      | Usable r => Some r
      | Weak | Threw => None
      end
  end.

(** The loop of [loadReferenceImages] over the settled promises. *)
Fixpoint settle_all (cfg : Config) (files : list ImageFile) (acc : list Ref)
  : list Ref :=
  match files with
  | [] => acc
  | f :: rest =>
      match _loadRefFromPath cfg f with
      | Some r => settle_all cfg rest (acc ++ [r])
      | None => settle_all cfg rest acc
      end
  end.

Definition loadReferenceImages (cfg : Config) (files : list ImageFile) : list Ref :=
  settle_all cfg files [].

Inductive Settled :=
| Fulfilled (v : option Ref)
| Rejected.

(** [_processRefFile]: resolves to [null] for a weak reference, rejects
    on [img.onerror] and on an exception. *)
Definition _processRefFile (cfg : Config) (f : ImageFile) : Settled :=
  match picture f with
  | None => Rejected
  | Some p =>
      match build_ref cfg (file_name f) p with
      | Usable r => Fulfilled (Some r)
      | Weak => Fulfilled None
      | Threw => Rejected
      end
  end.

(** The [for ... await] of [loadCustomReferenceImages]: the references
    pushed, and whether the loop ran to its end ([false] when an [await]
    threw). *)
Fixpoint await_each (cfg : Config) (files : list ImageFile) (acc : list Ref)
  : list Ref * bool :=
  match files with
  | [] => (acc, true)
  | f :: rest =>
      match _processRefFile cfg f with
      | Rejected => (acc, false)
      | Fulfilled (Some r) => await_each cfg rest (acc ++ [r])
      | Fulfilled None => await_each cfg rest acc
      end
  end.

Definition loadCustomReferenceImages (cfg : Config) (files : list ImageFile)
  : list Ref * bool :=
  await_each cfg files [].

End Detector.

(** ** Notions used by the statements *)

(** The configuration with another template threshold. *)
Definition with_threshold (cfg : Config) (t : float) : Config :=
  {| INSTANT_TEMPLATE := INSTANT_TEMPLATE cfg; TMPL_SIZE := TMPL_SIZE cfg;
     TMPL_THR := t; EDGE_TMPL := EDGE_TMPL cfg; CONF_RATIO := CONF_RATIO cfg;
     MIN_GOOD_MATCHES := MIN_GOOD_MATCHES cfg; MIN_INLIERS := MIN_INLIERS cfg;
     SMOOTH_N := SMOOTH_N cfg; SHOW_DEBUG := SHOW_DEBUG cfg;
     EXIT_ON_PASS := EXIT_ON_PASS cfg; PASS_HOLD_MS := PASS_HOLD_MS cfg;
     PROC_W := PROC_W cfg; PROC_H := PROC_H cfg |}.

Definition with_min_inliers (cfg : Config) (n : num) : Config :=
  {| INSTANT_TEMPLATE := INSTANT_TEMPLATE cfg; TMPL_SIZE := TMPL_SIZE cfg;
     TMPL_THR := TMPL_THR cfg; EDGE_TMPL := EDGE_TMPL cfg;
     CONF_RATIO := CONF_RATIO cfg; MIN_GOOD_MATCHES := MIN_GOOD_MATCHES cfg;
     MIN_INLIERS := n; SMOOTH_N := SMOOTH_N cfg; SHOW_DEBUG := SHOW_DEBUG cfg;
     EXIT_ON_PASS := EXIT_ON_PASS cfg; PASS_HOLD_MS := PASS_HOLD_MS cfg;
     PROC_W := PROC_W cfg; PROC_H := PROC_H cfg |}.

Definition with_show_debug (cfg : Config) (d : bool) : Config :=
  {| INSTANT_TEMPLATE := INSTANT_TEMPLATE cfg; TMPL_SIZE := TMPL_SIZE cfg;
     TMPL_THR := TMPL_THR cfg; EDGE_TMPL := EDGE_TMPL cfg;
     CONF_RATIO := CONF_RATIO cfg; MIN_GOOD_MATCHES := MIN_GOOD_MATCHES cfg;
     MIN_INLIERS := MIN_INLIERS cfg; SMOOTH_N := SMOOTH_N cfg; SHOW_DEBUG := d;
     EXIT_ON_PASS := EXIT_ON_PASS cfg; PASS_HOLD_MS := PASS_HOLD_MS cfg;
     PROC_W := PROC_W cfg; PROC_H := PROC_H cfg |}.

(** The window after the pushes [p] at capacity [N]: the last [N] of them. *)
Definition window (N : Z) (p : list bool) : list bool :=
  skipn (length p - Z.to_nat N) p.

(** Hamming distances of ORB descriptors, which have 256 bits. *)
Definition hamming_range : list Z := map Z.of_nat (seq 0 257).

(** On Hamming distances the test [dm < ratio * dn], computed in
    doubles, decides [den * dm < num * dn] for [ratio = num / den]. *)
Definition ratio_exact (ratio : float) (num den : Z) : bool :=
  forallb (fun dm =>
    forallb (fun dn =>
      Bool.eqb (flt (of_Z dm) (fmul ratio (of_Z dn))) (den * dm <? num * dn))
      hamming_range) hamming_range.

Section Notions.

Context {cv : OpenCV}.

(** The number of frames of a sequence on which the gate reports a hit. *)
Definition gate_hits (cfg : Config) (refs : list Ref) (frames : list Mat) : nat :=
  length (filter (template_gate cfg refs) frames).

(** Fewer than 8 descriptors are extracted from the file's image. *)
Definition few_descriptors (f : ImageFile) : Prop :=
  exists p kps descs,
    picture f = Some p /\ detectAndCompute (gray p) = Some (kps, descs)
    /\ Z.of_nat (length descs) < 8.

(** The file is usable: its image decodes to [p], at least 8 descriptors
    are extracted from it, and the template [t] and the response buffer
    are built. *)
Definition usable (cfg : Config) (f : ImageFile) (p : Picture)
  (kps : list KeyPoint) (descs : list Descriptor) (t : Mat) : Prop :=
  picture f = Some p
  /\ detectAndCompute (gray p) = Some (kps, descs)
  /\ 8 <= Z.of_nat (length descs)
  /\ resize (gray p) (TMPL_SIZE cfg) = Some t
  /\ allocMat (PROC_H cfg - TMPL_SIZE cfg + 1) (PROC_W cfg - TMPL_SIZE cfg + 1) = true.

(** The reference [r] is the one the handler resolves with for a usable
    file (lines 176-201 and 266-289). *)
Definition built_from (cfg : Config) (f : ImageFile) (p : Picture)
  (kps : list KeyPoint) (descs : list Descriptor) (t : Mat) (r : Ref) : Prop :=
  name r = file_name f
  /\ kp r = kps
  /\ des r = descs
  /\ corners r = [of_Z 0; of_Z 0; of_Z (width p); of_Z 0;
                  of_Z (width p); of_Z (height p); of_Z 0; of_Z (height p)]
  /\ tmpl r = Some (if EDGE_TMPL cfg then Canny t else t)
  /\ res r = Some (PROC_H cfg - TMPL_SIZE cfg + 1, PROC_W cfg - TMPL_SIZE cfg + 1)
  /\ dataUrl r = pic_dataUrl p.

(** The handler of the file runs to its end: the file is weak or usable. *)
Definition processed (cfg : Config) (f : ImageFile) : Prop :=
  few_descriptors f \/ exists p kps descs t, usable cfg f p kps descs t.

(** The fit of a reference fails: [cv.findHomography] throws, or the
    matrix it returns is empty. *)
Definition fit_fails (srcPts dstPts : list float) : bool :=
  match findHomography srcPts dstPts with
  | None => true
  | Some (H, _) => H_empty H
  end.

(** After the spec's words, for comparison with [fallback_loop]: the loop
    over the references without the early exit. *)
Fixpoint fallback_loop_all (cfg : Config) (frameKp : list KeyPoint)
  (desFrame : list Descriptor) (refs : list Ref) (b : Best) : option Best :=
  match refs with
  | [] => Some b
  | ref :: rest =>
      match eval_reference cfg frameKp desFrame ref b with
      | None => None
      | Some (b', _) => fallback_loop_all cfg frameKp desFrame rest b'
      end
  end.

(** The quadrilateral a fitted reference gives: its corner polygon
    through the homography fitted for it. *)
Definition projected (cfg : Config) (frameKp : list KeyPoint)
  (desFrame : list Descriptor) (ref : Ref) (quad : list float) : Prop :=
  exists srcPts dstPts H mask,
    build_points (kp ref) frameKp
      (ratio_test (CONF_RATIO cfg) (knnMatch (des ref) desFrame))
    = Some (srcPts, dstPts)
    /\ findHomography srcPts dstPts = Some (H, mask)
    /\ perspectiveTransform (corners ref) H = Some quad.

End Notions.

(** ** Notions used by the further statements *)

Section SessionNotions.

Context {cv : OpenCV}.

(** The source the gate matches against (line 412). *)
Definition srcForMatch (cfg : Config) (frameGray : Mat) : Mat :=
  if EDGE_TMPL cfg then Canny frameGray else frameGray.

(** A reference whose template clears the threshold on the frame. *)
Definition clears (cfg : Config) (frameGray : Mat) (ref : Ref) : Prop :=
  exists t r,
    tmpl ref = Some t /\ res ref = Some r
    /\ fge (matchTemplate_maxVal (srcForMatch cfg frameGray) t) (TMPL_THR cfg) = true.

(** A call of the loop, as opposed to a stop. *)
Definition is_tick (e : Event) : Prop :=
  match e with
  | Tick _ _ _ _ => True
  | Stop => False
  end.

(** The gate does not clear on the frame the event brings, if any. *)
Definition gate_silent (cfg : Config) (refs : list Ref) (e : Event) : Prop :=
  match e with
  | Tick _ frameGray _ _ => template_gate cfg refs frameGray = false
  | Stop => True
  end.

(** The surviving matches of a reference on the frame descriptors. *)
Definition good_matches (cfg : Config) (desFrame : list Descriptor) (ref : Ref)
  : list DMatch :=
  ratio_test (CONF_RATIO cfg) (knnMatch (des ref) desFrame).

(** Every index the matcher returns for the reference points into the
    keypoint vectors. *)
Definition indices_in_range (frameKp : list KeyPoint) (desFrame : list Descriptor)
  (ref : Ref) : Prop :=
  forall mv m,
    In mv (knnMatch (des ref) desFrame) -> In m mv ->
    (queryIdx m < length (kp ref))%nat /\ (trainIdx m < length frameKp)%nat.

(** The reference reaches the fit on the frame and the fit returns a
    matrix that is not empty, with [inliers] non-zero mask entries. *)
Definition fitted (cfg : Config) (frameKp : list KeyPoint)
  (desFrame : list Descriptor) (ref : Ref) (inliers : Z) : Prop :=
  exists srcPts dstPts H mask,
    build_points (kp ref) frameKp (good_matches cfg desFrame ref)
    = Some (srcPts, dstPts)
    /\ findHomography srcPts dstPts = Some (H, mask)
    /\ H_empty H = false
    /\ inliers = countNonZero mask.

End SessionNotions.

Section LoopNotions.

Context {cv : OpenCV}.

(** [lastTS = ts] (line 391). *)
Definition with_lastTS (s : Session) (ts : float) : Session :=
  {| config := config s; refs := refs s; hits := hits s; passed := passed s;
     passStartedAt := passStartedAt s; isRunning := isRunning s;
     lastQuad := lastQuad s; output := output s; lastTS := ts |}.

End LoopNotions.


(** ** A canned OpenCV for concrete scenes *)

Module Scene.

(** The matcher's answer: for the [i]-th query descriptor, the frame
    descriptors 0 and 1 at the Hamming distances 17 and 20. *)
Definition two_nearest (query : list nat) : list (list DMatch) :=
  map (fun i => [ {| queryIdx := i; trainIdx := 0; distance := of_Z 17 |};
                  {| queryIdx := i; trainIdx := 1; distance := of_Z 20 |} ])
      (seq 0 (length query)).

Definition keypoints (n : nat) : list KeyPoint :=
  map (fun i => {| pt_x := of_Z (Z.of_nat i); pt_y := of_Z (Z.of_nat i) |}) (seq 0 n).

(** Images are numbered; a resize to a size that is not positive and a
    matrix with a negative dimension throw.  Frames: 0 shows the wafer sharply, 1 is blank,
    5 shows the wafer blurred, 6 shows a textured background.  Reference
    pictures: 2, 3, 7 and 8 have 8, 9, 10 and 11 features, 4 has only 5.
    No other image can be processed. *)
Definition features (img : nat) : option (list KeyPoint * list nat) :=
  match img with
  | 0%nat => Some (keypoints 8, seq 0 8)
  | 1%nat => Some ([], [])
  | 2%nat => Some (keypoints 8, seq 200 8)
  | 3%nat => Some (keypoints 9, seq 300 9)
  | 4%nat => Some (keypoints 5, seq 400 5)
  | 5%nat => Some (keypoints 3, seq 0 3)
  | 6%nat => Some (keypoints 8, seq 0 8)
  | 7%nat => Some (keypoints 10, seq 700 10)
  | 8%nat => Some (keypoints 11, seq 800 11)
  | _ => None
  end.

(** The response maximum: 0.60 on the frames that show the wafer, 0.30
    on the others. *)
Definition score (frame tmpl : nat) : float :=
  match frame with
  | 0%nat | 5%nat => decimal 60 2
  | _ => decimal 30 2
  end.

(** The fit by the number of point coordinates: with 8 matches it
    throws, with 9 it has 10 inliers, with 10 it has 5 inliers, with 11
    it returns the empty matrix (numbered 0). *)
Definition fit (coords : nat) : option (nat * list Z) :=
  match coords with
  | 18%nat => Some (1%nat, [1; 1; 1; 1; 1; 1; 1; 1; 1; 1])
  | 20%nat => Some (2%nat, [1; 1; 0; 1; 0; 1; 1; 0; 0; 0])
  | 22%nat => Some (0%nat, [])
  | _ => None
  end.

(** Homography 1 is the identity, homography 2 a mirror image that
    reverses the order of the coordinates. *)
Definition project (c : list float) (h : nat) : option (list float) :=
  match h with
  | 1%nat => Some c
  | 2%nat => Some (rev c)
  | _ => None
  end.

Definition cv0 : OpenCV :=
  {| Mat := nat;
     Descriptor := nat;
     Homography := nat;
     Canny := fun m => m;
     resize := fun m s => if 0 <? s then Some m else None;
     allocMat := fun rows cols => (0 <=? rows) && (0 <=? cols);
     matchTemplate_maxVal := score;
     detectAndCompute := features;
     knnMatch := fun query _ => two_nearest query;
     findHomography := fun srcPts _ => fit (length srcPts);
     H_empty := fun h => Nat.eqb h 0;
     perspectiveTransform := project |}.

Definition file (img : nat) : @ImageFile cv0 :=
  {| file_name := "wafer_ref.png";
     picture := Some (@Build_Picture cv0 64 48 img "data:image/png") |}.

(** The picture a file of image [img] decodes to. *)
Definition picture_of (img : nat) : @Picture cv0 :=
  @Build_Picture cv0 64 48 img "data:image/png".

(** A file that does not decode. *)
Definition broken_file : @ImageFile cv0 :=
  {| file_name := "missing.png"; picture := None |}.

(** The reference built from picture [img], which has [n] features. *)
Definition reference (img n : nat) : @Ref cv0 :=
  @Build_Ref cv0 "wafer_ref.png" (keypoints n) (seq (100 * img) n)
    [of_Z 0; of_Z 0; of_Z 64; of_Z 0; of_Z 64; of_Z 48; of_Z 0; of_Z 48]
    (Some img) (Some (145, 225)) "data:image/png".

(** A session that has just started with the given references. *)
Definition started (cfg : Config) (refs : list (@Ref cv0)) : @Session cv0 :=
  @Build_Session cv0 cfg refs [] false None true None "0" (of_Z 0).

(** A match at the given Hamming distance. *)
Definition at_distance (d : Z) : DMatch :=
  {| queryIdx := 0; trainIdx := 0; distance := of_Z d |}.

(** The page without any of the four inputs, and pages with one. *)
Definition no_inputs : Inputs :=
  {| confRatio := None; minGoodMatches := None; minInliers := None;
     smoothFrames := None |}.

Definition smooth_input (n : num) : Inputs :=
  {| confRatio := None; minGoodMatches := None; minInliers := None;
     smoothFrames := Some n |}.

Definition ratio_input (r : float) : Inputs :=
  {| confRatio := Some r; minGoodMatches := None; minInliers := None;
     smoothFrames := None |}.

Definition min_good_input (n : num) : Inputs :=
  {| confRatio := None; minGoodMatches := Some n; minInliers := None;
     smoothFrames := None |}.

(** The default tunables with the instant gate switched off. *)
Definition instant_off : Config :=
  {| INSTANT_TEMPLATE := false; TMPL_SIZE := 96; TMPL_THR := decimal 55 2;
     EDGE_TMPL := false; CONF_RATIO := decimal 90 2; MIN_GOOD_MATCHES := Some 3;
     MIN_INLIERS := Some 6; SMOOTH_N := Some 5; SHOW_DEBUG := true;
     EXIT_ON_PASS := false; PASS_HOLD_MS := of_Z 1000; PROC_W := 320;
     PROC_H := 240 |}.

(** The [k]-th call of the loop, 40 ms after the one before, on a frame. *)
Definition tick (k : Z) (frame : nat) : @Event cv0 :=
  @Tick cv0 (of_Z (40 * k)) frame (of_Z (40 * k + 1)) (of_Z (40 * k + 2)).

(** The default tunables with the auto-exit switched on. *)
Definition auto_exit_on : Config :=
  {| INSTANT_TEMPLATE := true; TMPL_SIZE := 96; TMPL_THR := decimal 55 2;
     EDGE_TMPL := false; CONF_RATIO := decimal 90 2; MIN_GOOD_MATCHES := Some 3;
     MIN_INLIERS := Some 6; SMOOTH_N := Some 5; SHOW_DEBUG := true;
     EXIT_ON_PASS := true; PASS_HOLD_MS := of_Z 1000; PROC_W := 320;
     PROC_H := 240 |}.

(** A running session that passed at 41 ms. *)
Definition passed_at_41 : @Session cv0 :=
  @Build_Session cv0 auto_exit_on [reference 3 9] [true] true (Some (of_Z 41)) true
    None "1" (of_Z 40).

End Scene.

(** * Properties *)

(** ** The decision smoother *)

Lemma tl_skipn {A : Type} (n : nat) (l : list A) : tl (skipn n l) = skipn (S n) l.
Proof.
  revert l. induction n as [|n IH]; intros [|a l]; cbn [skipn tl]; auto.
Qed.

Section Smoother.

Variable N : Z.
Hypothesis N_pos : 1 <= N.

Lemma push_hit_window (p : list bool) (x : bool) :
  push_hit (Some N) (window N p) x = window N (p ++ [x]).
Proof.
  unfold push_hit, window, gt_num.
  rewrite length_app, length_app, length_skipn. cbn [length].
  destruct (Nat.le_gt_cases (Z.to_nat N) (length p)) as [Hge | Hlt].
  - replace (Z.of_nat (length p - (length p - Z.to_nat N) + 1) >? N) with true
      by (symmetry; apply Z.gtb_lt; lia).
    replace (length p + 1 - Z.to_nat N)%nat with (S (length p - Z.to_nat N)) by lia.
    rewrite <- tl_skipn. rewrite skipn_app.
    replace (length p - Z.to_nat N - length p)%nat with 0%nat by lia.
    reflexivity.
  - replace (Z.of_nat (length p - (length p - Z.to_nat N) + 1) >? N) with false
      by (symmetry; rewrite Z.gtb_ltb; apply Z.ltb_ge; lia).
    replace (length p - Z.to_nat N)%nat with 0%nat by lia.
    replace (length p + 1 - Z.to_nat N)%nat with 0%nat by lia.
    reflexivity.
Qed.

Lemma smoother_nth (inputs : list bool) :
  forall (p : list bool) (k : nat),
    (k < length inputs)%nat ->
    nth k (smoother (Some N) (window N p) inputs) false
    = some_hit (window N (p ++ firstn (S k) inputs)).
Proof.
  induction inputs as [|x rest IH]; intros p k Hk; cbn [length] in Hk; [lia|].
  cbn [smoother]. rewrite push_hit_window.
  destruct k as [|k].
  - reflexivity.
  - cbn [nth]. rewrite IH by lia.
    cbn [firstn]. rewrite <- app_assoc. reflexivity.
Qed.

Lemma some_hit_window (q : list bool) :
  some_hit (window N q) = true <->
  exists j, (length q - Z.to_nat N <= j < length q)%nat /\ nth_error q j = Some true.
Proof.
  unfold some_hit, window. rewrite existsb_exists. split.
  - intros [b [Hin Hb]]. subst b.
    apply In_nth_error in Hin. destruct Hin as [i Hi].
    rewrite nth_error_skipn in Hi.
    exists (length q - Z.to_nat N + i)%nat. split; [|exact Hi].
    assert (length q - Z.to_nat N + i < length q)%nat
      by (apply nth_error_Some; congruence).
    lia.
  - intros [j [Hj Hnth]]. exists true. split; [|reflexivity].
    apply nth_error_In with (n := (j - (length q - Z.to_nat N))%nat).
    rewrite nth_error_skipn.
    replace (length q - Z.to_nat N + (j - (length q - Z.to_nat N)))%nat with j by lia.
    exact Hnth.
Qed.

End Smoother.

Lemma smoother_one (inputs : list bool) :
  forall hits, (length hits <= 1)%nat -> smoother (Some 1) hits inputs = inputs.
Proof.
  induction inputs as [|x rest IH]; intros hits Hlen; [reflexivity|].
  cbn [smoother].
  assert (Hpush : push_hit (Some 1) hits x = [x]).
  { destruct hits as [|h [|h' t]]; cbn in Hlen; try lia; reflexivity. }
  rewrite Hpush. rewrite IH by (cbn; lia).
  unfold some_hit. cbn. rewrite orb_false_r. reflexivity.
Qed.

(** C3: at every capacity [N >= 1], from the empty window of a fresh
    session, the debounced output of the [k]-th push is true exactly when
    one of the last [min (k + 1) N] inputs is true; at capacity 1 the
    outputs are the inputs. *)
Theorem smoother_fifo_or (N : Z) (inputs : list bool) :
  1 <= N ->
  (forall k : nat,
      (k < length inputs)%nat ->
      (nth k (smoother (Some N) [] inputs) false = true <->
       exists j, (k + 1 - Nat.min (k + 1) (Z.to_nat N) <= j <= k)%nat
                 /\ nth_error inputs j = Some true))
  /\ (N = 1 -> smoother (Some N) [] inputs = inputs).
Proof.
  intros HN. split; [|intros ->; apply smoother_one; cbn; lia].
  intros k Hk.
  change (@nil bool) with (window N []) at 1.
  rewrite (smoother_nth N HN inputs [] k Hk). cbn [app].
  rewrite (some_hit_window N HN).
  assert (Hlen : length (firstn (S k) inputs) = S k)
    by (rewrite length_firstn; lia).
  rewrite Hlen.
  split; intros [j [Hj Hnth]]; exists j.
  - split; [lia|]. rewrite nth_error_firstn in Hnth.
    destruct (Nat.ltb_spec j (S k)); [exact Hnth|lia].
  - split; [lia|]. rewrite nth_error_firstn.
    destruct (Nat.ltb_spec j (S k)); [exact Hnth|lia].
Qed.

(** ** Order on numbers *)

Lemma SFleb_trans (a b c : float) :
  SFleb a b = true -> SFleb b c = true -> SFleb a c = true.
Proof.
  unfold SFleb, SFcompare.
  destruct a as [sa|sa| |sa ma ea], b as [sb|sb| |sb mb eb], c as [sc|sc| |sc mc ec];
    try destruct sa; try destruct sb; try destruct sc;
    try reflexivity; try discriminate.
  - destruct (Z.compare_spec ea eb), (Z.compare_spec eb ec), (Z.compare_spec ea ec);
      try reflexivity; try discriminate; try lia; subst.
    all: fold (Pos.compare mb ma); fold (Pos.compare mc mb); fold (Pos.compare mc ma).
    all: fold (Pos.compare ma mb); fold (Pos.compare mb mc); fold (Pos.compare ma mc).
    all: destruct (Pos.compare_spec ma mb), (Pos.compare_spec mb mc),
           (Pos.compare_spec ma mc); cbn; try reflexivity; try discriminate; lia.
  - destruct (Z.compare_spec ea eb), (Z.compare_spec eb ec), (Z.compare_spec ea ec);
      try reflexivity; try discriminate; try lia; subst.
    all: fold (Pos.compare ma mb); fold (Pos.compare mb mc); fold (Pos.compare ma mc).
    all: destruct (Pos.compare_spec ma mb), (Pos.compare_spec mb mc),
           (Pos.compare_spec ma mc); cbn; try reflexivity; try discriminate; lia.
Qed.

(** ** The instant template gate *)

Section Gate.

Context {cv : OpenCV}.

Lemma gate_loop_antitone (t t' : float) (src : Mat) (refs : list Ref) :
  SFleb t t' = true ->
  forall h h' : bool,
    (h' = true -> h = true) ->
    gate_loop t' src refs h' = true -> gate_loop t src refs h = true.
Proof.
  intros Hle. induction refs as [|r rest IH]; intros h h' Hh; cbn [gate_loop].
  - exact Hh.
  - destruct (tmpl r) as [tm|]; [destruct (res r) as [rb|]|]; try (apply IH; exact Hh).
    apply IH. unfold fge.
    destruct (SFleb t' (matchTemplate_maxVal src tm)) eqn:Hhit.
    + rewrite (SFleb_trans _ _ _ Hle Hhit). reflexivity.
    + intros Hh'. destruct (SFleb t (matchTemplate_maxVal src tm)); auto.
Qed.

Lemma template_gate_antitone (cfg : Config) (refs : list Ref) (t t' : float)
  (frame : Mat) :
  SFleb t t' = true ->
  template_gate (with_threshold cfg t') refs frame = true ->
  template_gate (with_threshold cfg t) refs frame = true.
Proof.
  intros Hle. unfold template_gate. cbn.
  destruct (INSTANT_TEMPLATE cfg); [|discriminate].
  apply gate_loop_antitone with (h' := false); auto.
Qed.

Lemma filter_length_le {A : Type} (f g : A -> bool) (l : list A) :
  (forall x, f x = true -> g x = true) ->
  (length (filter f l) <= length (filter g l))%nat.
Proof.
  intros Hfg. induction l as [|a l IH]; cbn; [lia|].
  destruct (f a) eqn:Hf.
  - rewrite (Hfg a Hf). cbn. lia.
  - destruct (g a); cbn; lia.
Qed.

(** C6: the gate is antitone in the template threshold: on every frame a
    hit at the threshold [t'] is a hit at every threshold [t <= t'], so
    over a sequence of frames the higher threshold has no more hits. *)
Theorem gate_antitone_in_threshold (cfg : Config) (refs : list Ref)
  (frames : list Mat) (t t' : float) :
  SFleb t t' = true ->
  (forall frame,
      template_gate (with_threshold cfg t') refs frame = true ->
      template_gate (with_threshold cfg t) refs frame = true)
  /\ (gate_hits (with_threshold cfg t') refs frames
      <= gate_hits (with_threshold cfg t) refs frames)%nat.
Proof.
  intros Hle. split.
  - intros frame. apply template_gate_antitone. exact Hle.
  - unfold gate_hits. apply filter_length_le.
    intros frame. apply template_gate_antitone. exact Hle.
Qed.

End Gate.

(** ** The pass latch *)

Section Latch.

Context {cv : OpenCV}.

Lemma stopDetection_passed (s : Session) : passed (stopDetection s) = passed s.
Proof. reflexivity. Qed.

(** Only a new start clears the latch; it also empties the window. *)
Lemma startDetection_resets (s : Session) (ui : Inputs) :
  refs s <> [] ->
  passed (startDetection s true ui) = false /\ hits (startDetection s true ui) = [].
Proof.
  intros Hrefs. unfold startDetection.
  destruct (refs s); [congruence | split; reflexivity].
Qed.

Lemma cycle_keeps_passed (s : Session) (frame : Mat) (now1 now2 : float) :
  passed s = true -> passed (cycle s frame now1 now2) = true.
Proof.
  intros Hp. unfold cycle.
  destruct (detect (config s) (refs s) frame) as [d|]; [|exact Hp].
  rewrite Hp. rewrite andb_false_r. cbn zeta.
  destruct (EXIT_ON_PASS (config s) && true && truthy (passStartedAt s)).
  - destruct (passStartedAt s) as [t0|]; [|reflexivity].
    destruct (fge (fsub now2 t0) (PASS_HOLD_MS (config s))); reflexivity.
  - reflexivity.
Qed.

Lemma step_keeps_passed (s : Session) (e : Event) :
  passed s = true -> passed (step s e) = true.
Proof.
  intros Hp. destruct e as [ts frame now1 now2|]; cbn [step].
  - unfold loop. destruct (negb (isRunning s)); [exact Hp|].
    destruct (flt (fsub ts (lastTS s)) targetDelta); [exact Hp|].
    apply cycle_keeps_passed. exact Hp.
  - exact Hp.
Qed.

(** C4: once [passed] is true it is true after every further sequence
    of loop calls and stops, whatever the frames and the clock. *)
Theorem passed_is_sticky (s : Session) (events : list Event) :
  passed s = true -> passed (run s events) = true.
Proof.
  unfold run. revert s.
  induction events as [|e rest IH]; intros s Hp; cbn [fold_left].
  - exact Hp.
  - apply IH. apply step_keeps_passed. exact Hp.
Qed.

End Latch.

(** ** The reference loaders *)

Section Loader.

Context {cv : OpenCV}.
Variable cfg : Config.

Lemma build_ref_weak (nm : string) (p : Picture) kps descs :
  detectAndCompute (gray p) = Some (kps, descs) ->
  Z.of_nat (length descs) < 8 ->
  build_ref cfg nm p = Weak.
Proof.
  intros Hd Hlt. unfold build_ref. rewrite Hd.
  destruct (Z.ltb_spec (Z.of_nat (length descs)) 8); [reflexivity|lia].
Qed.

Lemma build_ref_usable (nm : string) (p : Picture) (r : Ref) :
  build_ref cfg nm p = Usable r -> 8 <= Z.of_nat (length (des r)).
Proof.
  unfold build_ref.
  destruct (detectAndCompute (gray p)) as [[kps descs]|]; [|discriminate].
  destruct (Z.ltb_spec (Z.of_nat (length descs)) 8) as [|Hrows]; [discriminate|].
  destruct (resize (gray p) (TMPL_SIZE cfg)) as [resized|]; [|discriminate].
  destruct (allocMat _ _); [|discriminate].
  intros Heq. injection Heq as <-. exact Hrows.
Qed.

Lemma loadRefFromPath_weak (f : ImageFile) :
  few_descriptors f -> _loadRefFromPath cfg f = None.
Proof.
  intros (p & kps & descs & Hp & Hd & Hlt). unfold _loadRefFromPath.
  rewrite Hp, (build_ref_weak _ _ _ _ Hd Hlt). reflexivity.
Qed.

Lemma processRefFile_weak (f : ImageFile) :
  few_descriptors f -> _processRefFile cfg f = Fulfilled None.
Proof.
  intros (p & kps & descs & Hp & Hd & Hlt). unfold _processRefFile.
  rewrite Hp, (build_ref_weak _ _ _ _ Hd Hlt). reflexivity.
Qed.

Lemma loadRefFromPath_rows (f : ImageFile) (r : Ref) :
  _loadRefFromPath cfg f = Some r -> 8 <= Z.of_nat (length (des r)).
Proof.
  unfold _loadRefFromPath. destruct (picture f) as [p|]; [|discriminate].
  destruct (build_ref cfg (file_name f) p) eqn:Hb; try discriminate.
  intros Heq. injection Heq as <-. eapply build_ref_usable. exact Hb.
Qed.

Lemma processRefFile_rows (f : ImageFile) (r : Ref) :
  _processRefFile cfg f = Fulfilled (Some r) -> 8 <= Z.of_nat (length (des r)).
Proof.
  unfold _processRefFile. destruct (picture f) as [p|]; [|discriminate].
  destruct (build_ref cfg (file_name f) p) eqn:Hb; try discriminate.
  intros Heq. injection Heq as <-. eapply build_ref_usable. exact Hb.
Qed.

(** The loop of [loadReferenceImages] appends, in order, the references
    of the files that yield one. *)
Lemma settle_all_app (pre post : list ImageFile) :
  forall acc,
    settle_all cfg (pre ++ post) acc = settle_all cfg post (settle_all cfg pre acc).
Proof.
  induction pre as [|f pre IH]; intros acc; cbn [app settle_all]; [reflexivity|].
  destruct (_loadRefFromPath cfg f); apply IH.
Qed.

Lemma settle_all_In (files : list ImageFile) :
  forall acc r,
    In r (settle_all cfg files acc) <->
    In r acc \/ exists f, In f files /\ _loadRefFromPath cfg f = Some r.
Proof.
  induction files as [|f rest IH]; intros acc r; cbn [settle_all].
  - split; [auto | intros [H | (f & [] & _)]; exact H].
  - destruct (_loadRefFromPath cfg f) as [r0|] eqn:Hf; rewrite IH.
    + rewrite in_app_iff. cbn [In]. split.
      * intros [[H | [<- | []]] | (g & Hg & Hr)]; auto.
        -- right. exists f. auto.
        -- right. exists g. auto.
      * intros [H | (g & [<- | Hg] & Hr)]; auto.
        -- left. right. left. congruence.
        -- right. exists g. auto.
    + cbn [In]. split.
      * intros [H | (g & Hg & Hr)]; auto. right. exists g. auto.
      * intros [H | (g & [<- | Hg] & Hr)]; auto; [congruence|].
        right. exists g. auto.
Qed.

Lemma settle_all_weak (pre post : list ImageFile) (f : ImageFile) (acc : list Ref) :
  few_descriptors f ->
  settle_all cfg (pre ++ f :: post) acc = settle_all cfg (pre ++ post) acc.
Proof.
  intros Hw. rewrite !settle_all_app. cbn [settle_all].
  rewrite (loadRefFromPath_weak f Hw). reflexivity.
Qed.

Lemma await_each_weak (pre post : list ImageFile) (f : ImageFile) :
  few_descriptors f ->
  forall acc,
    await_each cfg (pre ++ f :: post) acc = await_each cfg (pre ++ post) acc.
Proof.
  intros Hw. induction pre as [|g pre IH]; intros acc; cbn [app await_each].
  - rewrite (processRefFile_weak f Hw). reflexivity.
  - destruct (_processRefFile cfg g) as [[r|]|]; auto.
Qed.

Lemma await_each_rows (files : list ImageFile) :
  forall acc r,
    In r (fst (await_each cfg files acc)) ->
    In r acc \/ 8 <= Z.of_nat (length (des r)).
Proof.
  induction files as [|f rest IH]; intros acc r; cbn [await_each]; [auto|].
  destruct (_processRefFile cfg f) as [[r0|]|] eqn:Hf; [| apply IH | auto].
  intros Hin. apply IH in Hin. destruct Hin as [Hin | Hin]; [|auto].
  apply in_app_iff in Hin. destruct Hin as [Hin | [<- | []]]; [auto|].
  right. eapply processRefFile_rows. exact Hf.
Qed.

(** When no promise rejects, the sequential loader builds what the
    settle-all loader builds, and runs to its end. *)
Lemma await_each_no_reject (files : list ImageFile) :
  (forall g, In g files -> _processRefFile cfg g <> Rejected) ->
  forall acc, await_each cfg files acc = (settle_all cfg files acc, true).
Proof.
  induction files as [|f rest IH]; intros Hok acc; cbn [await_each settle_all];
    [reflexivity|].
  assert (Hf := Hok f (or_introl eq_refl)).
  assert (Hrest : forall g, In g rest -> _processRefFile cfg g <> Rejected)
    by (intros g Hg; apply Hok; right; exact Hg).
  unfold _processRefFile, _loadRefFromPath in *.
  destruct (picture f) as [p|]; [|congruence].
  destruct (build_ref cfg (file_name f) p); try congruence; apply IH; exact Hrest.
Qed.

Lemma build_ref_of_usable (f : ImageFile) (p : Picture) kps descs (t : Mat) :
  usable cfg f p kps descs t ->
  exists r, build_ref cfg (file_name f) p = Usable r
            /\ built_from cfg f p kps descs t r.
Proof.
  intros (_ & Hd & Hrows & Hresize & Halloc). unfold build_ref.
  rewrite Hd, Hresize, Halloc.
  destruct (Z.ltb_spec (Z.of_nat (length descs)) 8); [lia|].
  eexists. split; [reflexivity|]. repeat split.
Qed.

Lemma loadRefFromPath_usable (f : ImageFile) (p : Picture) kps descs (t : Mat) :
  usable cfg f p kps descs t ->
  exists r, _loadRefFromPath cfg f = Some r /\ built_from cfg f p kps descs t r.
Proof.
  intros Hu. destruct (build_ref_of_usable f p kps descs t Hu) as (r & Hb & Hr).
  exists r. split; [|exact Hr].
  destruct Hu as (Hp & _). unfold _loadRefFromPath. rewrite Hp, Hb. reflexivity.
Qed.

Lemma processRefFile_processed (f : ImageFile) :
  processed cfg f -> _processRefFile cfg f <> Rejected.
Proof.
  intros [Hw | (p & kps & descs & t & Hu)].
  - rewrite (processRefFile_weak f Hw). discriminate.
  - destruct (build_ref_of_usable f p kps descs t Hu) as (r & Hb & _).
    destruct Hu as (Hp & _). unfold _processRefFile. rewrite Hp, Hb. discriminate.
Qed.

(** C7: a file with fewer than 8 descriptors is left out wherever it
    stands in the batch, and both loaders give what they give without it;
    no loaded reference has fewer than 8 descriptors; every other file
    that yields a reference has it loaded, by the sequential loader too
    when none of the other files is rejected; in particular every other
    file that decodes, has at least 8 descriptors and has its template and
    buffer built is loaded with the reference built from its picture, by
    the sequential loader too when the handler of every other file runs to
    its end. *)
Theorem weak_reference_dropped (pre post : list ImageFile) (f : ImageFile) :
  few_descriptors f ->
  loadReferenceImages cfg (pre ++ f :: post) = loadReferenceImages cfg (pre ++ post)
  /\ loadCustomReferenceImages cfg (pre ++ f :: post)
     = loadCustomReferenceImages cfg (pre ++ post)
  /\ (forall r, In r (loadReferenceImages cfg (pre ++ f :: post)) ->
                8 <= Z.of_nat (length (des r)))
  /\ (forall r, In r (fst (loadCustomReferenceImages cfg (pre ++ f :: post))) ->
                8 <= Z.of_nat (length (des r)))
  /\ (forall g r, In g (pre ++ post) -> _loadRefFromPath cfg g = Some r ->
                  In r (loadReferenceImages cfg (pre ++ f :: post)))
  /\ ((forall g, In g (pre ++ post) -> _processRefFile cfg g <> Rejected) ->
      loadCustomReferenceImages cfg (pre ++ f :: post)
      = (loadReferenceImages cfg (pre ++ post), true))
  /\ (forall g p kps descs t,
        In g (pre ++ post) -> usable cfg g p kps descs t ->
        exists r, In r (loadReferenceImages cfg (pre ++ f :: post))
                  /\ built_from cfg g p kps descs t r)
  /\ ((forall h, In h (pre ++ post) -> processed cfg h) ->
      snd (loadCustomReferenceImages cfg (pre ++ f :: post)) = true
      /\ forall g p kps descs t,
           In g (pre ++ post) -> usable cfg g p kps descs t ->
           exists r, In r (fst (loadCustomReferenceImages cfg (pre ++ f :: post)))
                     /\ built_from cfg g p kps descs t r).
Proof.
  intros Hw. unfold loadReferenceImages, loadCustomReferenceImages.
  rewrite (settle_all_weak pre post f [] Hw), (await_each_weak pre post f Hw).
  assert (Husable : forall g p kps descs t,
             In g (pre ++ post) -> usable cfg g p kps descs t ->
             exists r, In r (settle_all cfg (pre ++ post) [])
                       /\ built_from cfg g p kps descs t r).
  { intros g p kps descs t Hg Hu.
    destruct (loadRefFromPath_usable g p kps descs t Hu) as (r & Hr & Hb).
    exists r. split; [|exact Hb]. apply settle_all_In. right. exists g. auto. }
  split; [reflexivity|]. split; [reflexivity|].
  split; [|split; [|split; [|split; [|split]]]].
  - intros r Hin. apply settle_all_In in Hin.
    destruct Hin as [[] | (g & _ & Hg)]. eapply loadRefFromPath_rows. exact Hg.
  - intros r Hin. apply await_each_rows in Hin. destruct Hin as [[] | H]. exact H.
  - intros g r Hg Hr. apply settle_all_In. right. exists g. auto.
  - intros Hok. apply await_each_no_reject. exact Hok.
  - exact Husable.
  - intros Hall.
    assert (Hok : forall h, In h (pre ++ post) -> _processRefFile cfg h <> Rejected)
      by (intros h Hh; apply processRefFile_processed; apply Hall; exact Hh).
    rewrite (await_each_no_reject (pre ++ post) Hok []). cbn [fst snd].
    split; [reflexivity | exact Husable].
Qed.

End Loader.

(** ** The fallback loop *)

Section Fallback.

Context {cv : OpenCV}.
Variable cfg : Config.
Variable frameKp : list KeyPoint.
Variable desFrame : list Descriptor.

Lemma ge_num_mono (a b : Z) (n : num) :
  a <= b -> ge_num a n = true -> ge_num b n = true.
Proof.
  destruct n as [z|]; cbn; [|discriminate].
  intros Hab Ha. apply Z.geb_le in Ha. apply Z.geb_le. lia.
Qed.

Lemma fit_reference_fails (ref : Ref) (srcPts dstPts : list float) (b : Best) :
  fit_fails srcPts dstPts = true -> fit_reference cfg ref srcPts dstPts b = b.
Proof.
  unfold fit_fails, fit_reference.
  destruct (findHomography srcPts dstPts) as [[H mask]|]; [|reflexivity].
  intros ->. reflexivity.
Qed.

Lemma fit_reference_mono (ref : Ref) (srcPts dstPts : list float) (b : Best) :
  bestInliers b <= bestInliers (fit_reference cfg ref srcPts dstPts b).
Proof.
  unfold fit_reference.
  destruct (findHomography srcPts dstPts) as [[H mask]|]; [|lia].
  destruct (H_empty H); [lia|].
  destruct (Z.gtb_spec (countNonZero mask) (bestInliers b)); [|lia].
  destruct (SHOW_DEBUG cfg); [destruct (perspectiveTransform (corners ref) H)|];
    cbn; lia.
Qed.

Lemma eval_reference_mono (ref : Ref) (b b' : Best) (fl : Flow) :
  eval_reference cfg frameKp desFrame ref b = Some (b', fl) ->
  bestInliers b <= bestInliers b'.
Proof.
  unfold eval_reference.
  destruct (lt_num _ _).
  - intros Heq. injection Heq as <- <-. lia.
  - destruct (build_points _ _ _) as [[srcPts dstPts]|]; [|discriminate].
    intros Heq. injection Heq as <- <-. apply fit_reference_mono.
Qed.

(** A reference left with [Continue] leaves the bar unmet if it was unmet
    before, and a reference left with [Break] has met it. *)
Lemma eval_reference_flow (ref : Ref) (b b' : Best) (fl : Flow) :
  eval_reference cfg frameKp desFrame ref b = Some (b', fl) ->
  match fl with
  | Break => ge_num (bestInliers b') (MIN_INLIERS cfg) = true
  | Continue =>
      ge_num (bestInliers b) (MIN_INLIERS cfg) = false ->
      ge_num (bestInliers b') (MIN_INLIERS cfg) = false
  end.
Proof.
  unfold eval_reference.
  destruct (lt_num _ _).
  - intros Heq. injection Heq as <- <-. auto.
  - destruct (build_points _ _ _) as [[srcPts dstPts]|]; [|discriminate].
    intros Heq. injection Heq as <- <-.
    destruct (ge_num _ _) eqn:Hge; auto.
Qed.

Lemma fallback_loop_all_mono (refs : list Ref) :
  forall b b_all,
    fallback_loop_all cfg frameKp desFrame refs b = Some b_all ->
    bestInliers b <= bestInliers b_all.
Proof.
  induction refs as [|r rest IH]; intros b b_all; cbn [fallback_loop_all].
  - intros Heq. injection Heq as <-. lia.
  - destruct (eval_reference cfg frameKp desFrame r b) as [[b' fl]|] eqn:He;
      [|discriminate].
    intros Hall. apply IH in Hall. apply eval_reference_mono in He. lia.
Qed.

(** The early exit does not change whether the bar is met. *)
Lemma early_exit_same_decision (refs : list Ref) :
  forall b b_all,
    fallback_loop_all cfg frameKp desFrame refs b = Some b_all ->
    exists b_exit,
      fallback_loop cfg frameKp desFrame refs b = Some b_exit
      /\ ge_num (bestInliers b_exit) (MIN_INLIERS cfg)
         = ge_num (bestInliers b_all) (MIN_INLIERS cfg).
Proof.
  induction refs as [|r rest IH]; intros b b_all;
    cbn [fallback_loop_all fallback_loop].
  - intros Heq. injection Heq as <-. exists b. auto.
  - destruct (eval_reference cfg frameKp desFrame r b) as [[b' fl]|] eqn:He;
      [|discriminate].
    intros Hall. destruct fl.
    + apply IH. exact Hall.
    + exists b'. split; [reflexivity|].
      pose proof (eval_reference_flow _ _ _ _ He) as Hmet. cbn in Hmet.
      rewrite Hmet. symmetry.
      eapply ge_num_mono; [|exact Hmet].
      eapply fallback_loop_all_mono. exact Hall.
Qed.

(** A reference whose fit fails is passed over when the bar is not met. *)
Lemma eval_reference_failed_fit (ref : Ref) (srcPts dstPts : list float) (b : Best) :
  build_points (kp ref) frameKp
    (ratio_test (CONF_RATIO cfg) (knnMatch (des ref) desFrame))
  = Some (srcPts, dstPts) ->
  fit_fails srcPts dstPts = true ->
  ge_num (bestInliers b) (MIN_INLIERS cfg) = false ->
  eval_reference cfg frameKp desFrame ref b = Some (b, Continue).
Proof.
  intros Hpts Hfail Hbar. unfold eval_reference.
  destruct (lt_num _ _); [reflexivity|].
  rewrite Hpts, (fit_reference_fails _ _ _ _ Hfail), Hbar. reflexivity.
Qed.

Lemma fallback_loop_skip (pre post : list Ref) (ref : Ref) :
  (forall b, ge_num (bestInliers b) (MIN_INLIERS cfg) = false ->
             eval_reference cfg frameKp desFrame ref b = Some (b, Continue)) ->
  forall b,
    ge_num (bestInliers b) (MIN_INLIERS cfg) = false ->
    fallback_loop cfg frameKp desFrame (pre ++ ref :: post) b
    = fallback_loop cfg frameKp desFrame (pre ++ post) b.
Proof.
  intros Hskip. induction pre as [|a pre IH]; intros b Hbar;
    cbn [app fallback_loop].
  - rewrite (Hskip b Hbar). reflexivity.
  - destruct (eval_reference cfg frameKp desFrame a b) as [[b' fl]|] eqn:He;
      [|reflexivity].
    destruct fl; [|reflexivity].
    apply IH. exact (eval_reference_flow _ _ _ _ He Hbar).
Qed.

(** Once the bar is met the loop has ended: references put after it are
    not evaluated. *)
Lemma fallback_loop_exit (refs post : list Ref) :
  forall b b_exit,
    ge_num (bestInliers b) (MIN_INLIERS cfg) = false ->
    fallback_loop cfg frameKp desFrame refs b = Some b_exit ->
    ge_num (bestInliers b_exit) (MIN_INLIERS cfg) = true ->
    fallback_loop cfg frameKp desFrame (refs ++ post) b = Some b_exit.
Proof.
  induction refs as [|r rest IH]; intros b b_exit Hbar; cbn [app fallback_loop].
  - intros Heq Hmet. injection Heq as <-. congruence.
  - destruct (eval_reference cfg frameKp desFrame r b) as [[b' fl]|] eqn:He;
      [|discriminate].
    destruct fl; [|auto].
    apply IH. exact (eval_reference_flow _ _ _ _ He Hbar).
Qed.

(** With the overlay on, a reference that raises the best count leaves
    its own projected quadrilateral. *)
Lemma eval_reference_quad (ref : Ref) (b b' : Best) (fl : Flow) :
  SHOW_DEBUG cfg = true ->
  eval_reference cfg frameKp desFrame ref b = Some (b', fl) ->
  bestInliers b < bestInliers b' ->
  forall quad, projected cfg frameKp desFrame ref quad -> bestQuad b' = Some quad.
Proof.
  intros Hdbg. unfold eval_reference.
  destruct (lt_num _ _).
  - intros Heq. injection Heq as <- <-. lia.
  - destruct (build_points _ _ _) as [[srcPts dstPts]|] eqn:Hpts; [|discriminate].
    intros Heq. injection Heq as <- <-. unfold fit_reference.
    intros Hlt quad (s' & d' & H & mask & Hpts' & Hfit & Hproj).
    rewrite Hpts in Hpts'. injection Hpts' as <- <-.
    rewrite Hfit in *. destruct (H_empty H); [lia|].
    destruct (countNonZero mask >? bestInliers b); [|lia].
    rewrite Hdbg, Hproj. reflexivity.
Qed.

Lemma fallback_loop_quad (refs : list Ref) :
  SHOW_DEBUG cfg = true ->
  forall b b_exit,
    ge_num (bestInliers b) (MIN_INLIERS cfg) = false ->
    fallback_loop cfg frameKp desFrame refs b = Some b_exit ->
    ge_num (bestInliers b_exit) (MIN_INLIERS cfg) = true ->
    exists pre ref post,
      refs = pre ++ ref :: post
      /\ fallback_loop cfg frameKp desFrame (pre ++ [ref]) b = Some b_exit
      /\ forall quad, projected cfg frameKp desFrame ref quad ->
                      bestQuad b_exit = Some quad.
Proof.
  intros Hdbg. induction refs as [|r rest IH]; intros b b_exit Hbar;
    cbn [fallback_loop].
  - intros Heq Hmet. injection Heq as <-. congruence.
  - destruct (eval_reference cfg frameKp desFrame r b) as [[b' fl]|] eqn:He;
      [|discriminate].
    destruct fl.
    + intros Hloop Hmet.
      destruct (IH b' b_exit (eval_reference_flow _ _ _ _ He Hbar) Hloop Hmet)
        as (pre & ref & post & -> & Hpre & Hq).
      exists (r :: pre), ref, post. split; [reflexivity|]. split; [|exact Hq].
      cbn [app fallback_loop]. rewrite He. exact Hpre.
    + intros Heq Hmet. injection Heq as <-.
      exists [], r, rest. split; [reflexivity|]. split.
      * cbn [app fallback_loop]. rewrite He. reflexivity.
      * apply (eval_reference_quad _ _ _ _ Hdbg He).
        destruct (Z.lt_ge_cases (bestInliers b) (bestInliers b')) as [|Hle]; auto.
        pose proof (eval_reference_mono _ _ _ _ He).
        replace (bestInliers b') with (bestInliers b) in Hmet by lia. congruence.
Qed.
(** With the overlay off no quadrilateral is ever stored. *)
Lemma fit_reference_no_debug (ref : Ref) (srcPts dstPts : list float) (b : Best) :
  SHOW_DEBUG cfg = false ->
  bestQuad (fit_reference cfg ref srcPts dstPts b) = bestQuad b.
Proof.
  intros Hdbg. unfold fit_reference. rewrite Hdbg.
  destruct (findHomography srcPts dstPts) as [[H mask]|]; [|reflexivity].
  destruct (H_empty H); [reflexivity|].
  destruct (countNonZero mask >? bestInliers b); reflexivity.
Qed.

Lemma fallback_loop_no_debug (refs : list Ref) :
  SHOW_DEBUG cfg = false ->
  forall b b_exit,
    fallback_loop cfg frameKp desFrame refs b = Some b_exit ->
    bestQuad b_exit = bestQuad b.
Proof.
  intros Hdbg. induction refs as [|r rest IH]; intros b b_exit; cbn [fallback_loop].
  - intros Heq. injection Heq as <-. reflexivity.
  - unfold eval_reference.
    destruct (lt_num _ _); [apply IH|].
    destruct (build_points _ _ _) as [[srcPts dstPts]|]; [|discriminate].
    rewrite <- (fit_reference_no_debug r srcPts dstPts b Hdbg).
    destruct (ge_num _ _); [|apply IH].
    intros Heq. injection Heq as <-. reflexivity.
Qed.

End Fallback.

(** ** The ratio test *)

Lemma ratio_test_one (ratio : float) (m n : DMatch) :
  ratio_test ratio [[m; n]]
  = if flt (distance m) (fmul ratio (distance n)) then [m] else [].
Proof. cbn [ratio_test]. destruct (flt _ _); reflexivity. Qed.

Lemma ratio_test_In (ratio : float) (matches : list (list DMatch)) (m : DMatch) :
  In m (ratio_test ratio matches) <->
  exists n, In [m; n] matches /\ flt (distance m) (fmul ratio (distance n)) = true.
Proof.
  induction matches as [|mv rest IH]; cbn [ratio_test].
  - split; [intros [] | intros (n & [] & _)].
  - assert (Hskip : (forall a b, mv <> [a; b]) ->
                    (In m (ratio_test ratio rest) <->
                     exists n, In [m; n] (mv :: rest)
                               /\ flt (distance m) (fmul ratio (distance n)) = true)).
    { intros Hne. rewrite IH. split.
      - intros (n & Hin & Ht). exists n. split; [right; exact Hin | exact Ht].
      - intros (n & [Heq | Hin] & Ht); [exfalso; exact (Hne _ _ Heq)|].
        exists n. auto. }
    destruct mv as [|a [|b [|c t]]]; try (apply Hskip; intros; discriminate).
    destruct (flt (distance a) (fmul ratio (distance b))) eqn:Hab.
    + cbn [In]. rewrite IH. split.
      * intros [<- | (n & Hin & Ht)]; [exists b; auto | exists n; auto].
      * intros (n & [Heq | Hin] & Ht).
        -- injection Heq as -> ->. left. reflexivity.
        -- right. exists n. auto.
    + rewrite IH. split.
      * intros (n & Hin & Ht). exists n. split; [right; exact Hin | exact Ht].
      * intros (n & [Heq | Hin] & Ht).
        -- injection Heq as -> ->. congruence.
        -- exists n. auto.
Qed.

Lemma hamming_range_In (d : Z) : 0 <= d <= 256 -> In d hamming_range.
Proof.
  intros Hd. unfold hamming_range.
  replace d with (Z.of_nat (Z.to_nat d)) by lia.
  apply in_map. apply in_seq. lia.
Qed.

Lemma ratio_exact_spec (ratio : float) (num den dm dn : Z) :
  ratio_exact ratio num den = true ->
  0 <= dm <= 256 -> 0 <= dn <= 256 ->
  flt (of_Z dm) (fmul ratio (of_Z dn)) = (den * dm <? num * dn).
Proof.
  unfold ratio_exact. intros Hall Hm Hn.
  rewrite forallb_forall in Hall.
  specialize (Hall dm (hamming_range_In dm Hm)).
  rewrite forallb_forall in Hall.
  specialize (Hall dn (hamming_range_In dn Hn)).
  apply Bool.eqb_prop in Hall. exact Hall.
Qed.

(** On Hamming distances the doubles 0.80, 0.90 and 0.95 test the exact
    inequality. *)
Lemma ratio_exact_080 : ratio_exact (decimal 80 2) 80 100 = true.
Proof. vm_compute. reflexivity. Qed.

Lemma ratio_exact_090 : ratio_exact (decimal 90 2) 90 100 = true.
Proof. vm_compute. reflexivity. Qed.

Lemma ratio_exact_095 : ratio_exact (decimal 95 2) 95 100 = true.
Proof. vm_compute. reflexivity. Qed.

(** C5: a match with two neighbours is kept exactly when its distance is
    below the ratio times the distance of the second neighbour; at Hamming
    distances in the proportion 0.85 it is kept at the ratios 0.90 and
    0.95 and dropped at 0.80. *)
Theorem ratio_test_keeps (ratio : float) (matches : list (list DMatch))
  (m n : DMatch) (dm dn : Z) :
  (In m (ratio_test ratio matches) <->
   exists n', In [m; n'] matches
              /\ flt (distance m) (fmul ratio (distance n')) = true)
  /\ ratio_test ratio [[m; n]]
     = (if flt (distance m) (fmul ratio (distance n)) then [m] else [])
  /\ (distance m = of_Z dm -> distance n = of_Z dn ->
      0 < dn <= 256 -> 20 * dm = 17 * dn ->
      ratio_test (decimal 90 2) [[m; n]] = [m]
      /\ ratio_test (decimal 95 2) [[m; n]] = [m]
      /\ ratio_test (decimal 80 2) [[m; n]] = []).
Proof.
  split; [apply ratio_test_In|]. split; [apply ratio_test_one|].
  intros Hm Hn Hdn Hprop. rewrite !ratio_test_one, Hm, Hn.
  rewrite (ratio_exact_spec _ _ _ dm dn ratio_exact_090) by lia.
  rewrite (ratio_exact_spec _ _ _ dm dn ratio_exact_095) by lia.
  rewrite (ratio_exact_spec _ _ _ dm dn ratio_exact_080) by lia.
  destruct (Z.ltb_spec (100 * dm) (90 * dn)); [|lia].
  destruct (Z.ltb_spec (100 * dm) (95 * dn)); [|lia].
  destruct (Z.ltb_spec (100 * dm) (80 * dn)); [lia|].
  auto.
Qed.

Lemma ratio_test_keeps_witness :
  (distance (Scene.at_distance 85) = of_Z 85
   /\ distance (Scene.at_distance 100) = of_Z 100
   /\ 0 < 100 <= 256 /\ 20 * 85 = 17 * 100)
  /\ ratio_test (decimal 90 2) [[Scene.at_distance 85; Scene.at_distance 100]]
     = [Scene.at_distance 85]
  /\ ratio_test (decimal 95 2) [[Scene.at_distance 85; Scene.at_distance 100]]
     = [Scene.at_distance 85]
  /\ ratio_test (decimal 80 2) [[Scene.at_distance 85; Scene.at_distance 100]] = [].
Proof.
  split; [repeat split; lia|].
  apply (ratio_test_keeps (decimal 90 2) [] (Scene.at_distance 85)
           (Scene.at_distance 100) 85 100); try reflexivity; lia.
Defined.

(** ** The detection cycle *)

(** The end of [cycle] is the optional auto-exit: a field that
    [stopDetection] leaves alone has the same value on each of its paths. *)
Ltac auto_exit_cases :=
  repeat match goal with
    | |- context [if ?c then _ else _] => destruct c
    | |- context [match ?o with Some _ => _ | None => _ end] => destruct o
    end;
  reflexivity.

Section Cycle.

Context {cv : OpenCV}.

Lemma detect_unfold (cfg : Config) (refs : list Ref) (frame : Mat) (b : Best) :
  orb_fallback cfg refs frame = Some b ->
  detect cfg refs frame
  = Some {| templateHit := template_gate cfg refs frame;
            best := b;
            waferPresent := template_gate cfg refs frame
                            && ge_num (bestInliers b) (MIN_INLIERS cfg) |}.
Proof. intros Hb. unfold detect. cbn [negb]. rewrite Hb. reflexivity. Qed.

Lemma stopDetection_hits (s : Session) : hits (stopDetection s) = hits s.
Proof. reflexivity. Qed.

Lemma cycle_hits (s : Session) (frame : Mat) (now1 now2 : float) (d : Detection) :
  detect (config s) (refs s) frame = Some d ->
  hits (cycle s frame now1 now2)
  = push_hit (SMOOTH_N (config s)) (hits s) (waferPresent d).
Proof.
  intros Hd. unfold cycle. rewrite Hd. cbn zeta. auto_exit_cases.
Qed.

Lemma cycle_lastQuad_none (s : Session) (frame : Mat) (now1 now2 : float)
  (d : Detection) :
  detect (config s) (refs s) frame = Some d ->
  bestQuad (best d) = None ->
  lastQuad (cycle s frame now1 now2) = None.
Proof.
  intros Hd Hq. unfold cycle. rewrite Hd, Hq. cbn zeta. auto_exit_cases.
Qed.

(** A cycle whose fallback throws pushes nothing. *)
Lemma cycle_exception (s : Session) (frame : Mat) (now1 now2 : float) :
  orb_fallback (config s) (refs s) frame = None ->
  cycle s frame now1 now2 = s.
Proof.
  intros Hb. unfold cycle, detect. cbn [negb]. rewrite Hb. reflexivity.
Qed.

(** C2: the flag pushed by a cycle is [templateHit] and the inlier bar
    together, so it is false whenever the template gate did not clear. *)
Theorem presence_flag_pushed (s : Session) (frame : Mat) (now1 now2 : float)
  (b : Best) :
  orb_fallback (config s) (refs s) frame = Some b ->
  hits (cycle s frame now1 now2)
  = push_hit (SMOOTH_N (config s)) (hits s)
      (template_gate (config s) (refs s) frame
       && ge_num (bestInliers b) (MIN_INLIERS (config s)))
  /\ (template_gate (config s) (refs s) frame = false ->
      hits (cycle s frame now1 now2)
      = push_hit (SMOOTH_N (config s)) (hits s) false).
Proof.
  intros Hb.
  rewrite (cycle_hits s frame now1 now2 _ (detect_unfold _ _ _ _ Hb)).
  cbn [waferPresent]. split; [reflexivity|].
  intros ->. reflexivity.
Qed.

(** C10 as amended: a frame with fewer than 8 descriptors skips the loop
    over the references: the best count is 0, there is no quadrilateral,
    and the flag pushed is [templateHit && 0 >= MIN_INLIERS], which is
    false whatever the gate says when 0 does not meet the bar. *)
Theorem few_frame_descriptors (s : Session) (frame : Mat) (now1 now2 : float)
  (kpFrame : list KeyPoint) (desFrame : list Descriptor) :
  detectAndCompute frame = Some (kpFrame, desFrame) ->
  Z.of_nat (length desFrame) < 8 ->
  orb_fallback (config s) (refs s) frame = Some Best0
  /\ lastQuad (cycle s frame now1 now2) = None
  /\ hits (cycle s frame now1 now2)
     = push_hit (SMOOTH_N (config s)) (hits s)
         (template_gate (config s) (refs s) frame
          && ge_num 0 (MIN_INLIERS (config s)))
  /\ (ge_num 0 (MIN_INLIERS (config s)) = false ->
      hits (cycle s frame now1 now2)
      = push_hit (SMOOTH_N (config s)) (hits s) false).
Proof.
  intros Hf Hlt.
  assert (Hb : orb_fallback (config s) (refs s) frame = Some Best0).
  { unfold orb_fallback. rewrite Hf.
    destruct (Z.geb_spec (Z.of_nat (length desFrame)) 8); [lia|reflexivity]. }
  pose proof (detect_unfold _ _ _ _ Hb) as Hd.
  split; [exact Hb|]. split; [exact (cycle_lastQuad_none _ _ _ _ _ Hd eq_refl)|].
  rewrite (cycle_hits _ _ _ _ _ Hd). cbn [waferPresent bestInliers Best0].
  split; [reflexivity|].
  intros ->. rewrite andb_false_r. reflexivity.
Qed.

End Cycle.

(** ** The failed fit and the early exit *)

Section FallbackClaims.

Context {cv : OpenCV}.
Variable cfg : Config.
Variable frameKp : list KeyPoint.
Variable desFrame : list Descriptor.

(** C8 as amended: when 0 inliers do not already meet the bar, a
    reference whose fit throws or is empty leaves the running best as it
    was and the loop goes on: the loop gives what it gives without that
    reference, wherever the reference stands. *)
Theorem failed_fit_is_skipped (pre post : list Ref) (ref : Ref)
  (srcPts dstPts : list float) :
  build_points (kp ref) frameKp
    (ratio_test (CONF_RATIO cfg) (knnMatch (des ref) desFrame))
  = Some (srcPts, dstPts) ->
  fit_fails srcPts dstPts = true ->
  ge_num 0 (MIN_INLIERS cfg) = false ->
  (forall b, ge_num (bestInliers b) (MIN_INLIERS cfg) = false ->
             eval_reference cfg frameKp desFrame ref b = Some (b, Continue))
  /\ fallback_loop cfg frameKp desFrame (pre ++ ref :: post) Best0
     = fallback_loop cfg frameKp desFrame (pre ++ post) Best0.
Proof.
  intros Hpts Hfail Hbar.
  assert (Hskip : forall b, ge_num (bestInliers b) (MIN_INLIERS cfg) = false ->
                  eval_reference cfg frameKp desFrame ref b = Some (b, Continue)).
  { intros b Hb. eapply eval_reference_failed_fit; eauto. }
  split; [exact Hskip|].
  apply (fallback_loop_skip cfg frameKp desFrame pre post ref Hskip Best0 Hbar).
Qed.

(** C9 as amended: whether the bar is met is the same as in the loop
    without the early exit, hence so is the presence flag; once the best
    count meets a bar that 0 inliers do not meet, the loop has ended at the
    reference that met it and references after it are not evaluated; with
    [SHOW_DEBUG] on, the quadrilateral is that reference's corner polygon
    through its fitted homography; with [SHOW_DEBUG] off there is none. *)
Theorem early_exit_is_sound (refs post : list Ref) :
  (forall (b_all : Best) (hit : bool),
      fallback_loop_all cfg frameKp desFrame refs Best0 = Some b_all ->
      exists b_exit,
        fallback_loop cfg frameKp desFrame refs Best0 = Some b_exit
        /\ hit && ge_num (bestInliers b_exit) (MIN_INLIERS cfg)
           = hit && ge_num (bestInliers b_all) (MIN_INLIERS cfg))
  /\ (forall b_exit : Best,
        ge_num 0 (MIN_INLIERS cfg) = false ->
        fallback_loop cfg frameKp desFrame refs Best0 = Some b_exit ->
        ge_num (bestInliers b_exit) (MIN_INLIERS cfg) = true ->
        fallback_loop cfg frameKp desFrame (refs ++ post) Best0 = Some b_exit
        /\ (SHOW_DEBUG cfg = true ->
            exists pre ref rest,
              refs = pre ++ ref :: rest
              /\ fallback_loop cfg frameKp desFrame (pre ++ [ref]) Best0 = Some b_exit
              /\ forall quad, projected cfg frameKp desFrame ref quad ->
                              bestQuad b_exit = Some quad))
  /\ (forall b_exit : Best,
        SHOW_DEBUG cfg = false ->
        fallback_loop cfg frameKp desFrame refs Best0 = Some b_exit ->
        bestQuad b_exit = None).
Proof.
  split; [|split].
  - intros b_all hit Hall.
    destruct (early_exit_same_decision cfg frameKp desFrame _ _ _ Hall)
      as (b' & Hb' & Hsame).
    exists b'. split; [exact Hb'|]. rewrite Hsame. reflexivity.
  - intros b_exit Hbar Hloop Hmet. split.
    + exact (fallback_loop_exit cfg frameKp desFrame refs post Best0 b_exit
               Hbar Hloop Hmet).
    + intros Hdbg.
      exact (fallback_loop_quad cfg frameKp desFrame refs Hdbg Best0 b_exit
               Hbar Hloop Hmet).
  - intros b_exit Hdbg Hloop.
    exact (fallback_loop_no_debug cfg frameKp desFrame refs Hdbg Best0 b_exit Hloop).
Qed.

End FallbackClaims.

(** ** Concrete scenes *)

Import Scene.

(** The canned loader builds the canned references. *)
Example loads_reference :
  @loadReferenceImages cv0 default_config [file 3; file 7]
  = [reference 3 9; reference 7 10].
Proof. vm_compute. reflexivity. Qed.

(** C1: with the default tunables, one reference whose template answers
    0.60 (at or above the threshold 0.55) and whose fit has 5 inliers: the
    gate clears, the fallback still runs and reports its 5 inliers, and the
    frame is not a hit; the session does not pass. *)
Theorem gate_clear_is_not_a_hit :
  @template_gate cv0 default_config [reference 7 10] 0%nat = true
  /\ (exists d,
        @detect cv0 default_config [reference 7 10] 0%nat = Some d
        /\ templateHit d = true
        /\ bestInliers (best d) = 5
        /\ waferPresent d = false)
  /\ hits (cycle (started default_config [reference 7 10]) 0%nat (of_Z 40) (of_Z 41))
     = [false]
  /\ passed (cycle (started default_config [reference 7 10]) 0%nat (of_Z 40) (of_Z 41))
     = false.
Proof.
  split; [vm_compute; reflexivity|]. split.
  - eexists. split; [vm_compute; reflexivity|]. repeat split.
  - split; vm_compute; reflexivity.
Qed.

Lemma presence_flag_pushed_witness :
  @orb_fallback cv0 default_config [reference 3 9] 6%nat
  = Some {| bestInliers := 10;
            bestQuad := Some (corners (reference 3 9)) |}
  /\ hits (cycle (started default_config [reference 3 9]) 6%nat (of_Z 40) (of_Z 41))
     = push_hit (Some 5) [] (false && ge_num 10 (Some 6)).
Proof.
  split; [vm_compute; reflexivity|].
  refine (proj1 (@presence_flag_pushed cv0 (started default_config [reference 3 9])
                   6%nat (of_Z 40) (of_Z 41)
                   {| bestInliers := 10;
                      bestQuad := Some (corners (reference 3 9)) |} _)).
  vm_compute. reflexivity.
Defined.

Lemma smoother_fifo_or_witness :
  (1 <= 3 /\ (3 < length [false; false; true; false; false; false])%nat)
  /\ (nth 3 (smoother (Some 3) [] [false; false; true; false; false; false]) false
      = true <->
      exists j, (3 + 1 - Nat.min (3 + 1) (Z.to_nat 3) <= j <= 3)%nat
                /\ nth_error [false; false; true; false; false; false] j = Some true).
Proof.
  split; [split; [lia | cbn; lia]|].
  refine (proj1 (smoother_fifo_or 3 [false; false; true; false; false; false] _)
            3%nat _); [lia | cbn; lia].
Defined.

Lemma passed_is_sticky_witness :
  passed (cycle (started default_config [reference 3 9]) 0%nat (of_Z 40) (of_Z 41))
  = true
  /\ passed (run (cycle (started default_config [reference 3 9]) 0%nat
                    (of_Z 40) (of_Z 41))
               [@Tick cv0 (of_Z 80) 1%nat (of_Z 81) (of_Z 82);
                @Tick cv0 (of_Z 120) 6%nat (of_Z 121) (of_Z 122);
                @Stop cv0;
                @Tick cv0 (of_Z 160) 1%nat (of_Z 161) (of_Z 162)])
     = true.
Proof.
  split; [vm_compute; reflexivity|].
  apply (@passed_is_sticky cv0). vm_compute. reflexivity.
Defined.

Lemma gate_antitone_in_threshold_witness :
  SFleb (decimal 55 2) (decimal 70 2) = true
  /\ (forall frame,
         @template_gate cv0 (with_threshold default_config (decimal 70 2))
           [reference 3 9] frame = true ->
         @template_gate cv0 (with_threshold default_config (decimal 55 2))
           [reference 3 9] frame = true)
  /\ (@gate_hits cv0 (with_threshold default_config (decimal 70 2))
        [reference 3 9] [0; 1; 5; 6]
      <= @gate_hits cv0 (with_threshold default_config (decimal 55 2))
           [reference 3 9] [0; 1; 5; 6])%nat.
Proof.
  split; [vm_compute; reflexivity|].
  apply (@gate_antitone_in_threshold cv0 default_config [reference 3 9]
           [0; 1; 5; 6]%nat (decimal 55 2) (decimal 70 2)).
  vm_compute. reflexivity.
Defined.

Lemma file4_few_descriptors : @few_descriptors cv0 (file 4).
Proof.
  exists (@Build_Picture cv0 64 48 4%nat "data:image/png"), (keypoints 5), (seq 400 5).
  repeat split.
Defined.

(** Pictures 2 and 3 are usable: picture 2 has exactly 8 descriptors. *)
Lemma file2_usable :
  @usable cv0 default_config (file 2) (picture_of 2) (keypoints 8) (seq 200 8) 2%nat.
Proof. repeat split. cbn. lia. Defined.

Lemma file3_usable :
  @usable cv0 default_config (file 3) (picture_of 3) (keypoints 9) (seq 300 9) 3%nat.
Proof. repeat split. cbn. lia. Defined.

Lemma weak_reference_dropped_witness :
  @few_descriptors cv0 (file 4)
  /\ @loadReferenceImages cv0 default_config ([file 2] ++ file 4 :: [file 3])
     = @loadReferenceImages cv0 default_config ([file 2] ++ [file 3])
  /\ @loadCustomReferenceImages cv0 default_config ([file 2] ++ file 4 :: [file 3])
     = @loadCustomReferenceImages cv0 default_config ([file 2] ++ [file 3])
  /\ (exists r,
        In r (@loadReferenceImages cv0 default_config ([file 2] ++ file 4 :: [file 3]))
        /\ @built_from cv0 default_config (file 2) (picture_of 2) (keypoints 8)
             (seq 200 8) 2%nat r)
  /\ snd (@loadCustomReferenceImages cv0 default_config
            ([file 2] ++ file 4 :: [file 3])) = true
  /\ (exists r,
        In r (fst (@loadCustomReferenceImages cv0 default_config
                     ([file 2] ++ file 4 :: [file 3])))
        /\ @built_from cv0 default_config (file 3) (picture_of 3) (keypoints 9)
             (seq 300 9) 3%nat r).
Proof.
  split; [exact file4_few_descriptors|].
  destruct (@weak_reference_dropped cv0 default_config [file 2] [file 3] (file 4)
              file4_few_descriptors) as (H1 & H2 & _ & _ & _ & _ & H7 & H8).
  split; [exact H1|]. split; [exact H2|]. split.
  - apply (H7 (file 2) (picture_of 2) (keypoints 8) (seq 200 8) 2%nat);
      [left; reflexivity | exact file2_usable].
  - assert (Hall : forall h, In h ([file 2] ++ [file 3]) ->
                             @processed cv0 default_config h).
    { intros h [<- | [<- | []]]; right.
      - exists (picture_of 2), (keypoints 8), (seq 200 8), 2%nat. exact file2_usable.
      - exists (picture_of 3), (keypoints 9), (seq 300 9), 3%nat. exact file3_usable. }
    destruct (H8 Hall) as [Hend Hloaded]. split; [exact Hend|].
    apply (Hloaded (file 3) (picture_of 3) (keypoints 9) (seq 300 9) 3%nat);
      [right; left; reflexivity | exact file3_usable].
Defined.

(** C10, counterexample: with the inlier bar at 0, a frame with 3
    descriptors on which the gate clears is a hit. *)
Lemma few_frame_descriptors_hit :
  @detectAndCompute cv0 5%nat = Some (keypoints 3, seq 0 3)
  /\ @detect cv0 (with_min_inliers default_config (Some 0)) [reference 3 9] 5%nat
     = Some {| templateHit := true; best := Best0; waferPresent := true |}.
Proof. split; vm_compute; reflexivity. Qed.

Lemma few_frame_descriptors_witness :
  (@detectAndCompute cv0 5%nat = Some (keypoints 3, seq 0 3)
   /\ Z.of_nat (length (seq 0 3)) < 8)
  /\ @orb_fallback cv0 default_config [reference 3 9] 5%nat = Some Best0
  /\ lastQuad (cycle (started default_config [reference 3 9]) 5%nat (of_Z 40) (of_Z 41))
     = None
  /\ hits (cycle (started default_config [reference 3 9]) 5%nat (of_Z 40) (of_Z 41))
     = push_hit (Some 5) [] false.
Proof.
  split; [split; [reflexivity | cbn; lia]|].
  destruct (@few_frame_descriptors cv0 (started default_config [reference 3 9]) 5%nat
              (of_Z 40) (of_Z 41) (keypoints 3) (seq 0 3) eq_refl)
    as (H1 & H2 & _ & H4); [cbn; lia|].
  split; [exact H1|]. split; [exact H2|]. apply H4. reflexivity.
Defined.

(** C8, counterexample: with the inlier bar at 0, the first reference's
    fit throws and the loop stops there with 0 inliers; without that
    reference the second one is evaluated and has 10. *)
Lemma failed_fit_stops_the_loop :
  (exists srcPts dstPts,
      build_points (kp (reference 2 8)) (keypoints 8)
        (ratio_test (decimal 90 2) (@knnMatch cv0 (des (reference 2 8)) (seq 0 8)))
      = Some (srcPts, dstPts)
      /\ @fit_fails cv0 srcPts dstPts = true)
  /\ option_map bestInliers
       (@fallback_loop cv0 (with_min_inliers default_config (Some 0)) (keypoints 8)
          (seq 0 8) [reference 2 8; reference 3 9] Best0) = Some 0
  /\ option_map bestInliers
       (@fallback_loop cv0 (with_min_inliers default_config (Some 0)) (keypoints 8)
          (seq 0 8) [reference 3 9] Best0) = Some 10.
Proof.
  split.
  - eexists. eexists. split; [vm_compute; reflexivity|]. vm_compute. reflexivity.
  - split; vm_compute; reflexivity.
Qed.

Lemma failed_fit_is_skipped_witness :
  option_map bestInliers
    (@fallback_loop cv0 default_config (keypoints 8) (seq 0 8)
       ([reference 7 10] ++ reference 2 8 :: [reference 3 9]) Best0)
  = option_map bestInliers
      (@fallback_loop cv0 default_config (keypoints 8) (seq 0 8)
         ([reference 7 10] ++ [reference 3 9]) Best0).
Proof.
  assert (Hpts : exists pts,
             build_points (kp (reference 2 8)) (keypoints 8)
               (ratio_test (CONF_RATIO default_config)
                  (@knnMatch cv0 (des (reference 2 8)) (seq 0 8)))
             = Some pts).
  { eexists. vm_compute. reflexivity. }
  destruct Hpts as [[srcPts dstPts] Hpts].
  destruct (@failed_fit_is_skipped cv0 default_config (keypoints 8) (seq 0 8)
              [reference 7 10] [reference 3 9] (reference 2 8) srcPts dstPts Hpts)
    as [_ Heq].
  - vm_compute in Hpts. injection Hpts as <- <-. vm_compute. reflexivity.
  - reflexivity.
  - rewrite Heq. reflexivity.
Defined.

(** C9, counterexample: with [SHOW_DEBUG] off, the reference meets the
    bar with 10 inliers and has a projected quadrilateral, and the loop
    ends with no quadrilateral; and with the bar at 0 the loop ends at a
    reference whose fit throws, the bar met and nothing projected. *)
Lemma bar_met_without_quad :
  @projected cv0 (with_show_debug default_config false) (keypoints 8) (seq 0 8)
    (reference 3 9) (corners (reference 3 9))
  /\ @fallback_loop cv0 (with_show_debug default_config false) (keypoints 8)
       (seq 0 8) [reference 3 9] Best0
     = Some {| bestInliers := 10; bestQuad := None |}
  /\ ge_num 10 (MIN_INLIERS (with_show_debug default_config false)) = true
  /\ @fallback_loop cv0 (with_min_inliers default_config (Some 0)) (keypoints 8)
       (seq 0 8) [reference 2 8; reference 3 9] Best0
     = Some Best0
  /\ ge_num (bestInliers Best0) (MIN_INLIERS (with_min_inliers default_config (Some 0)))
     = true.
Proof.
  split.
  - unfold projected. do 4 eexists.
    split; [vm_compute; reflexivity|]. split; vm_compute; reflexivity.
  - repeat split; vm_compute; reflexivity.
Qed.

Lemma early_exit_is_sound_witness :
  (ge_num 0 (MIN_INLIERS default_config) = false
   /\ @fallback_loop cv0 default_config (keypoints 8) (seq 0 8)
        [reference 7 10; reference 3 9] Best0
      = Some {| bestInliers := 10; bestQuad := Some (corners (reference 3 9)) |}
   /\ ge_num 10 (MIN_INLIERS default_config) = true)
  /\ @fallback_loop cv0 default_config (keypoints 8) (seq 0 8)
       ([reference 7 10; reference 3 9] ++ [reference 2 8]) Best0
     = Some {| bestInliers := 10; bestQuad := Some (corners (reference 3 9)) |}.
Proof.
  split; [repeat split; vm_compute; reflexivity|].
  refine (proj1 (proj1 (proj2 (@early_exit_is_sound cv0 default_config (keypoints 8)
                                 (seq 0 8) [reference 7 10; reference 3 9]
                                 [reference 2 8]))
                   _ _ _ _));
    vm_compute; reflexivity.
Defined.

(** * Further properties *)

(** ** The gate as a disjunction *)

Section GateShape.

Context {cv : OpenCV}.

Lemma gate_loop_true (thr : float) (src : Mat) (refs : list Ref) :
  forall h, h = true -> gate_loop thr src refs h = true.
Proof.
  induction refs as [|r rest IH]; intros h Hh; cbn [gate_loop]; [exact Hh|].
  destruct (tmpl r) as [t|]; [destruct (res r) as [rb|]|]; try (apply IH; exact Hh).
  apply IH. rewrite Hh. destruct (fge _ _); reflexivity.
Qed.

Lemma gate_loop_spec (thr : float) (src : Mat) (refs : list Ref) :
  forall h,
    gate_loop thr src refs h = true <->
    h = true
    \/ exists ref t r,
         In ref refs /\ tmpl ref = Some t /\ res ref = Some r
         /\ fge (matchTemplate_maxVal src t) thr = true.
Proof.
  induction refs as [|a rest IH]; intros h; cbn [gate_loop].
  - split; [auto | intros [H | (ref & t & r & [] & _)]; exact H].
  - assert (Hskip : (forall t r, tmpl a = Some t -> res a = Some r -> False) ->
                    (gate_loop thr src rest h = true <->
                     h = true
                     \/ exists ref t r,
                          In ref (a :: rest) /\ tmpl ref = Some t /\ res ref = Some r
                          /\ fge (matchTemplate_maxVal src t) thr = true)).
    { intros Hno. rewrite IH. split.
      - intros [H | (ref & t & r & Hin & Ht & Hr & Hs)]; [auto|].
        right. exists ref, t, r. cbn [In]. auto.
      - intros [H | (ref & t & r & [<- | Hin] & Ht & Hr & Hs)]; [auto | |].
        + exfalso. exact (Hno t r Ht Hr).
        + right. exists ref, t, r. auto. }
    destruct (tmpl a) as [ta|] eqn:Hta;
      [destruct (res a) as [ra|] eqn:Hra|];
      try (apply Hskip; intros; congruence).
    rewrite IH. split.
    + intros [H | (ref & t & r & Hin & Ht & Hr & Hs)].
      * destruct (fge (matchTemplate_maxVal src ta) thr) eqn:Hs; [|auto].
        right. exists a, ta, ra. cbn [In]. auto.
      * right. exists ref, t, r. cbn [In]. auto.
    + intros [H | (ref & t & r & [<- | Hin] & Ht & Hr & Hs)].
      * left. rewrite H. destruct (fge _ _); reflexivity.
      * left. rewrite Hta in Ht. injection Ht as <-. rewrite Hs. reflexivity.
      * right. exists ref, t, r. auto.
Qed.

Lemma template_gate_spec (cfg : Config) (refs : list Ref) (frame : Mat) :
  template_gate cfg refs frame = true <->
  INSTANT_TEMPLATE cfg = true /\ exists ref, In ref refs /\ clears cfg frame ref.
Proof.
  unfold template_gate, clears. fold (srcForMatch cfg frame).
  destruct (INSTANT_TEMPLATE cfg).
  - rewrite gate_loop_spec. split.
    + intros [H | (ref & t & r & Hin & Ht & Hr & Hs)]; [discriminate|].
      split; [reflexivity|]. exists ref. split; [exact Hin|]. exists t, r. auto.
    + intros [_ (ref & Hin & t & r & Ht & Hr & Hs)].
      right. exists ref, t, r. auto.
  - split; [discriminate | intros [H _]; discriminate].
Qed.

(** X1: the gate clears exactly when [INSTANT_TEMPLATE] is on and some
    reference that has a template and a response buffer scores at or above
    the threshold; the order of the references does not matter. *)
Theorem gate_is_a_disjunction (cfg : Config) (refs : list Ref) (frame : Mat) :
  (template_gate cfg refs frame = true <->
   INSTANT_TEMPLATE cfg = true /\ exists ref, In ref refs /\ clears cfg frame ref)
  /\ (forall refs' : list Ref,
         Permutation refs refs' ->
         template_gate cfg refs' frame = template_gate cfg refs frame).
Proof.
  split; [apply template_gate_spec|].
  intros refs' Hperm.
  destruct (template_gate cfg refs frame) eqn:Hg.
  - apply template_gate_spec in Hg. destruct Hg as [Hon (ref & Hin & Hc)].
    apply template_gate_spec. split; [exact Hon|].
    exists ref. split; [|exact Hc]. eapply Permutation_in; eauto.
  - destruct (template_gate cfg refs' frame) eqn:Hg'; [|reflexivity].
    apply template_gate_spec in Hg'. destruct Hg' as [Hon (ref & Hin & Hc)].
    rewrite <- Hg. symmetry. apply template_gate_spec. split; [exact Hon|].
    exists ref. split; [|exact Hc].
    eapply Permutation_in; [apply Permutation_sym; exact Hperm | exact Hin].
Qed.

End GateShape.

(** ** Sessions *)

Section Sessions.

Context {cv : OpenCV}.

(** What a completed cycle leaves in each field. *)
Lemma cycle_fields (s : Session) (frame : Mat) (now1 now2 : float) (d : Detection) :
  detect (config s) (refs s) frame = Some d ->
  let hits' := push_hit (SMOOTH_N (config s)) (hits s) (waferPresent d) in
  let enter := some_hit hits' && negb (passed s) in
  let s' := cycle s frame now1 now2 in
  config s' = config s /\ refs s' = refs s /\ lastTS s' = lastTS s
  /\ hits s' = hits'
  /\ passed s' = (if enter then true else passed s)
  /\ passStartedAt s' = (if enter then Some now1 else passStartedAt s).
Proof.
  intros Hd. cbn zeta. unfold cycle. rewrite Hd. cbn zeta.
  repeat split; auto_exit_cases.
Qed.

Lemma cycle_config (s : Session) (frame : Mat) (now1 now2 : float) :
  config (cycle s frame now1 now2) = config s
  /\ refs (cycle s frame now1 now2) = refs s.
Proof.
  destruct (detect (config s) (refs s) frame) as [d|] eqn:Hd.
  - destruct (cycle_fields s frame now1 now2 d Hd) as (Hc & Hr & _). auto.
  - unfold cycle. rewrite Hd. auto.
Qed.

Lemma step_config (s : Session) (e : Event) :
  config (step s e) = config s /\ refs (step s e) = refs s.
Proof.
  destruct e as [ts frame now1 now2|]; cbn [step]; [|auto].
  unfold loop. destruct (negb (isRunning s)); [auto|].
  destruct (flt _ _); [auto|].
  match goal with
  | |- context [cycle ?x _ _ _] => exact (cycle_config x frame now1 now2)
  end.
Qed.

(** Induction over a run for a property of sessions kept by every event
    that satisfies a condition which may mention the tunables and the
    references. *)
Lemma run_keeps (P : Session -> Prop) (Q : Config -> list Ref -> Event -> Prop) :
  (forall s e, Q (config s) (refs s) e -> P s -> P (step s e)) ->
  forall events s,
    Forall (Q (config s) (refs s)) events -> P s -> P (run s events).
Proof.
  intros Hstep. unfold run.
  induction events as [|e rest IH]; intros s Hall HP; cbn [fold_left]; [exact HP|].
  inversion Hall as [|? ? He Hrest]; subst.
  destruct (step_config s e) as [Hc Hr].
  apply IH; [rewrite Hc, Hr; exact Hrest | apply Hstep; assumption].
Qed.

Lemma run_keeps_always (P : Session -> Prop) :
  (forall s e, P s -> P (step s e)) ->
  forall events s, P s -> P (run s events).
Proof.
  intros Hstep events s HP.
  apply (run_keeps P (fun _ _ _ => True)); auto.
  apply Forall_forall. auto.
Qed.

(** A tick either leaves the session as it is but for [lastTS], or runs a
    cycle that completes. *)
Lemma loop_cases (s : Session) (ts : float) (frame : Mat) (now1 now2 : float) :
  let s1 := {| config := config s; refs := refs s; hits := hits s;
               passed := passed s; passStartedAt := passStartedAt s;
               isRunning := isRunning s; lastQuad := lastQuad s;
               output := output s; lastTS := ts |} in
  loop s ts frame now1 now2 = s
  \/ loop s ts frame now1 now2 = s1
  \/ (isRunning s = true
      /\ loop s ts frame now1 now2 = cycle s1 frame now1 now2
      /\ exists d, detect (config s) (refs s) frame = Some d).
Proof.
  cbn zeta. unfold loop.
  destruct (isRunning s) eqn:Hrun; cbn [negb]; [|auto].
  destruct (flt _ _); [auto|].
  match goal with |- context [cycle ?x _ _ _] => set (s1 := x) end.
  destruct (detect (config s) (refs s) frame) as [d|] eqn:Hd.
  - right. right. split; [reflexivity|]. split; [reflexivity|]. exists d. reflexivity.
  - right. left. unfold cycle. subst s1. cbn [config refs]. rewrite Hd. reflexivity.
Qed.

(** X16: no event changes the tunables or the reference set. *)
Theorem run_keeps_config_and_refs (s : Session) (events : list Event) :
  config (run s events) = config s /\ refs (run s events) = refs s.
Proof.
  apply (run_keeps_always (fun s' => config s' = config s /\ refs s' = refs s));
    [|auto].
  intros s' e [Hc Hr]. destruct (step_config s' e) as [Hc' Hr'].
  rewrite Hc', Hr'. auto.
Qed.

(** X13: a stopped session stays as it is: further calls of the loop
    return at once and a second stop changes nothing. *)
Theorem stop_is_final (s : Session) (events : list Event) :
  run (stopDetection s) events = stopDetection s.
Proof.
  apply (run_keeps_always (fun s' => s' = stopDetection s)); [|reflexivity].
  intros s' e ->. destruct e as [ts frame now1 now2|]; reflexivity.
Qed.

End Sessions.

(** ** The window and the latch over a run *)

Lemma some_hit_app (l1 l2 : list bool) :
  some_hit (l1 ++ l2) = some_hit l1 || some_hit l2.
Proof. unfold some_hit. apply existsb_app. Qed.

Lemma some_hit_tl (l : list bool) : some_hit (tl l) = true -> some_hit l = true.
Proof.
  destruct l as [|a l]; cbn; [auto|]. intros ->. apply orb_true_r.
Qed.

Lemma some_hit_push_false (N : num) (hits : list bool) :
  some_hit hits = false -> some_hit (push_hit N hits false) = false.
Proof.
  intros Hno. unfold push_hit. cbv zeta.
  assert (Hp : some_hit (hits ++ [false]) = false)
    by (rewrite some_hit_app, Hno; reflexivity).
  destruct (gt_num _ _); [|exact Hp].
  destruct (some_hit (tl (hits ++ [false]))) eqn:Ht; [|reflexivity].
  apply some_hit_tl in Ht. congruence.
Qed.

Lemma some_hit_push_true (N : num) (hits : list bool) :
  gt_num 1 N = false -> some_hit (push_hit N hits true) = true.
Proof.
  intros HN. unfold push_hit. cbv zeta. destruct hits as [|h t].
  - cbn [app length]. change (Z.of_nat 1) with 1. rewrite HN. reflexivity.
  - match goal with |- context [if ?c then _ else _] => destruct c end.
    + cbn [app tl]. rewrite some_hit_app. apply orb_true_r.
    + rewrite some_hit_app. apply orb_true_r.
Qed.

Lemma push_hit_length (N : Z) (hits : list bool) (x : bool) :
  Z.of_nat (length hits) <= N ->
  Z.of_nat (length (push_hit (Some N) hits x)) <= N.
Proof.
  intros Hlen. unfold push_hit, gt_num. cbv zeta.
  destruct (Z.gtb_spec (Z.of_nat (length (hits ++ [x]))) N) as [Hgt | Hle];
    [|exact Hle].
  rewrite length_app in Hgt. cbn [length] in Hgt.
  destruct hits as [|h t]; cbn [app tl length] in *; [lia|].
  rewrite length_app. cbn [length]. lia.
Qed.

Lemma push_hit_nan (hits : list bool) (x : bool) : push_hit None hits x = hits ++ [x].
Proof. reflexivity. Qed.

Lemma smoother_nan_nth (inputs : list bool) :
  forall (hits : list bool) (k : nat),
    (k < length inputs)%nat ->
    nth k (smoother None hits inputs) false
    = some_hit (hits ++ firstn (S k) inputs).
Proof.
  induction inputs as [|x rest IH]; intros hits k Hk; cbn [length] in Hk; [lia|].
  cbn [smoother]. rewrite push_hit_nan. destruct k as [|k].
  - reflexivity.
  - cbn [nth]. rewrite IH by lia. cbn [firstn]. rewrite <- app_assoc. reflexivity.
Qed.

(** X8: when [SMOOTH_N] is NaN nothing is ever shifted out: the debounced
    output of the [k]-th push is true as soon as any input so far was. *)
Theorem nan_window_never_forgets (inputs : list bool) (k : nat) :
  (k < length inputs)%nat ->
  (nth k (smoother None [] inputs) false = true <->
   exists j, (j <= k)%nat /\ nth_error inputs j = Some true).
Proof.
  intros Hk. rewrite (smoother_nan_nth inputs [] k Hk). cbn [app].
  unfold some_hit. rewrite existsb_exists. split.
  - intros (b & Hin & ->). apply In_nth_error in Hin. destruct Hin as [j Hj].
    rewrite nth_error_firstn in Hj.
    destruct (Nat.ltb_spec j (S k)); [|discriminate].
    exists j. split; [lia | exact Hj].
  - intros (j & Hj & Hnth). exists true. split; [|reflexivity].
    apply nth_error_In with (n := j). rewrite nth_error_firstn.
    destruct (Nat.ltb_spec j (S k)); [exact Hnth | lia].
Qed.

Section Latching.

Context {cv : OpenCV}.

Lemma detect_some (cfg : Config) (refs : list Ref) (frame : Mat) (d : Detection) :
  detect cfg refs frame = Some d ->
  exists b,
    orb_fallback cfg refs frame = Some b
    /\ templateHit d = template_gate cfg refs frame
    /\ best d = b
    /\ waferPresent d
       = template_gate cfg refs frame && ge_num (bestInliers b) (MIN_INLIERS cfg).
Proof.
  unfold detect. cbn [negb].
  destruct (orb_fallback cfg refs frame) as [b|]; [|discriminate].
  intros Heq. injection Heq as <-. exists b. cbn. auto.
Qed.

(** A completed cycle ends in the session [s0] it has built, or in that
    session stopped by the auto-exit. *)
Lemma cycle_either (s : Session) (frame : Mat) (now1 now2 : float) (d : Detection) :
  detect (config s) (refs s) frame = Some d ->
  let hits' := push_hit (SMOOTH_N (config s)) (hits s) (waferPresent d) in
  let decided := some_hit hits' in
  let passed' := if decided && negb (passed s) then true else passed s in
  exists s0,
    (cycle s frame now1 now2 = s0
     \/ (cycle s frame now1 now2 = stopDetection s0
         /\ EXIT_ON_PASS (config s) = true /\ passed s0 = true))
    /\ passed s0 = passed'
    /\ isRunning s0 = isRunning s
    /\ lastQuad s0
       = match bestQuad (best d) with
         | Some q => if SHOW_DEBUG (config s) && negb passed' then Some q else None
         | None => None
         end
    /\ output s0 = (if decided || passed' then "1" else "0")%string.
Proof.
  intros Hd. cbn zeta. unfold cycle. rewrite Hd. cbn zeta.
  match goal with
  | |- context [stopDetection ?r] => exists r
  end.
  split; [|repeat split; reflexivity].
  destruct (some_hit _); destruct (passed s); destruct (EXIT_ON_PASS (config s));
    cbn [andb negb];
    repeat match goal with
      | |- context [if ?c then _ else _] => destruct c
      | |- context [match ?o with Some _ => _ | None => _ end] => destruct o
      end;
    first [left; reflexivity | right; repeat split; reflexivity].
Qed.

(** What a completed cycle leaves in the fields the reporting reads. *)
Lemma cycle_report (s : Session) (frame : Mat) (now1 now2 : float) (d : Detection) :
  detect (config s) (refs s) frame = Some d ->
  let s' := cycle s frame now1 now2 in
  (lastQuad s' = None
   \/ (passed s' = false /\ SHOW_DEBUG (config s) = true
       /\ lastQuad s' = bestQuad (best d)))
  /\ (isRunning s' = isRunning s
      \/ (isRunning s' = false /\ EXIT_ON_PASS (config s) = true /\ passed s' = true))
  /\ (isRunning s' = true -> passed s' = true -> output s' = "1"%string).
Proof.
  intros Hd. cbn zeta.
  destruct (cycle_either s frame now1 now2 d Hd)
    as (s0 & [-> | (-> & Hexit & Hp0)] & Hp & Hrun & Hq & Hout).
  - split; [|split].
    + rewrite Hq, Hp. destruct (bestQuad (best d)) as [q|]; [|left; reflexivity].
      destruct (SHOW_DEBUG (config s)); cbn [andb]; [|left; reflexivity].
      match goal with |- context [negb ?b] => destruct b end; cbn [negb];
        [left; reflexivity | right; auto].
    + left. exact Hrun.
    + intros _ Hpass. rewrite Hout. rewrite <- Hp, Hpass, orb_true_r. reflexivity.
  - split; [|split].
    + left. reflexivity.
    + right. cbn [stopDetection isRunning passed]. auto.
    + cbn [stopDetection isRunning]. discriminate.
Qed.

End Latching.

Section Runs.

Context {cv : OpenCV}.

(** A property kept by a call of the loop: it must not depend on
    [lastTS] and must be kept by a cycle that completes. *)
Lemma loop_keeps (P : Session -> Prop) (s : Session) (ts : float) (frame : Mat)
  (now1 now2 : float) :
  P s ->
  P (with_lastTS s ts) ->
  (forall d, detect (config s) (refs s) frame = Some d ->
             P (cycle (with_lastTS s ts) frame now1 now2)) ->
  P (loop s ts frame now1 now2).
Proof.
  intros Hs Hts Hcycle.
  destruct (loop_cases s ts frame now1 now2) as [-> | [-> | (_ & -> & d & Hd)]].
  - exact Hs.
  - exact Hts.
  - exact (Hcycle d Hd).
Qed.

Lemma step_gate_silent (s : Session) (e : Event) :
  gate_silent (config s) (refs s) e ->
  passed s = false /\ some_hit (hits s) = false ->
  passed (step s e) = false /\ some_hit (hits (step s e)) = false.
Proof.
  intros Hq [Hp Hh]. destruct e as [ts frame now1 now2|]; cbn [step]; [|auto].
  cbn [gate_silent] in Hq.
  apply loop_keeps; [auto | auto |].
  intros d Hd.
  destruct (cycle_fields (with_lastTS s ts) frame now1 now2 d Hd)
    as (_ & _ & _ & Hhits & Hpass & _).
  cbn [with_lastTS config hits passed] in Hhits, Hpass.
  destruct (detect_some _ _ _ _ Hd) as (b & _ & _ & _ & Hw).
  rewrite Hq in Hw. cbn [andb] in Hw. rewrite Hw in Hhits, Hpass.
  rewrite (some_hit_push_false _ _ Hh) in Hpass. cbn [andb] in Hpass.
  rewrite Hhits, Hpass. split; [exact Hp | apply some_hit_push_false; exact Hh].
Qed.

(** X2: a session that has not passed and has no hit in its window does
    not pass over any events on whose frames the template gate does not
    clear, whatever the fallback finds. *)
Theorem no_pass_without_gate (s : Session) (events : list Event) :
  passed s = false ->
  some_hit (hits s) = false ->
  Forall (gate_silent (config s) (refs s)) events ->
  passed (run s events) = false /\ some_hit (hits (run s events)) = false.
Proof.
  intros Hp Hh Hall.
  apply (run_keeps (fun s' => passed s' = false /\ some_hit (hits s') = false)
           gate_silent); auto.
  intros s' e. apply step_gate_silent.
Qed.

(** X3: with [INSTANT_TEMPLATE] off the session never passes: the ORB
    fallback alone cannot produce a hit. *)
Theorem instant_template_off_never_passes (s : Session) (events : list Event) :
  INSTANT_TEMPLATE (config s) = false ->
  passed s = false ->
  some_hit (hits s) = false ->
  passed (run s events) = false.
Proof.
  intros Hoff Hp Hh.
  apply (run_keeps (fun s' => passed s' = false /\ some_hit (hits s') = false)
           gate_silent); auto.
  - intros s' e. apply step_gate_silent.
  - apply Forall_forall. intros [ts frame now1 now2|] _; cbn [gate_silent]; [|exact I].
    unfold template_gate. rewrite Hoff. reflexivity.
Qed.

(** X4: at a capacity of at least 1 (or NaN), a cycle whose presence flag
    is true leaves the session passed, and if it had not passed before,
    the entry time is the first clock reading of that cycle. *)
Theorem hit_passes_at_once (s : Session) (frame : Mat) (now1 now2 : float)
  (d : Detection) :
  detect (config s) (refs s) frame = Some d ->
  waferPresent d = true ->
  gt_num 1 (SMOOTH_N (config s)) = false ->
  passed (cycle s frame now1 now2) = true
  /\ (passed s = false -> passStartedAt (cycle s frame now1 now2) = Some now1).
Proof.
  intros Hd Hw HN.
  destruct (cycle_fields s frame now1 now2 d Hd) as (_ & _ & _ & _ & Hpass & Hat).
  rewrite Hw, (some_hit_push_true _ _ HN) in Hpass, Hat. cbn [andb] in Hpass, Hat.
  split.
  - rewrite Hpass. destruct (passed s); reflexivity.
  - intros Hp. rewrite Hat, Hp. reflexivity.
Qed.

(** X6: with a capacity of 0 or less, every pushed flag is shifted out at
    once: from an empty window the window stays empty and the session
    never passes. *)
Theorem zero_window_never_passes (s : Session) (events : list Event) (N : Z) :
  SMOOTH_N (config s) = Some N ->
  N <= 0 ->
  hits s = [] ->
  passed s = false ->
  passed (run s events) = false /\ hits (run s events) = [].
Proof.
  intros HN Hle Hh Hp.
  pose (P := fun s' : Session =>
               SMOOTH_N (config s') = Some N /\ passed s' = false /\ hits s' = []).
  assert (HP : P (run s events)).
  { apply run_keeps_always; [|unfold P; auto].
    intros s' e (HN' & Hp' & Hh').
    destruct e as [ts frame now1 now2|]; cbn [step]; [|unfold P; auto].
    apply loop_keeps; [unfold P; auto | unfold P; auto |].
    intros d Hd.
    destruct (cycle_fields (with_lastTS s' ts) frame now1 now2 d Hd)
      as (Hc & _ & _ & Hhits & Hpass & _).
    cbn [with_lastTS config hits passed] in Hc, Hhits, Hpass.
    assert (Hempty : push_hit (SMOOTH_N (config s')) (hits s') (waferPresent d) = []).
    { rewrite HN', Hh'. unfold push_hit, gt_num. cbn [app length].
      destruct (Z.gtb_spec (Z.of_nat 1) N); [reflexivity | lia]. }
    rewrite Hempty in Hhits, Hpass. cbn in Hpass.
    unfold P. rewrite Hc, Hhits, Hpass. auto. }
  destruct HP as (_ & Hp' & Hh'). auto.
Qed.

(** X7: the window never grows beyond its capacity. *)
Theorem window_is_bounded (s : Session) (events : list Event) (N : Z) :
  SMOOTH_N (config s) = Some N ->
  Z.of_nat (length (hits s)) <= N ->
  Z.of_nat (length (hits (run s events))) <= N.
Proof.
  intros HN Hlen.
  pose (P := fun s' : Session =>
               SMOOTH_N (config s') = Some N /\ Z.of_nat (length (hits s')) <= N).
  assert (HP : P (run s events)).
  { apply run_keeps_always; [|unfold P; auto].
    intros s' e (HN' & Hlen').
    destruct e as [ts frame now1 now2|]; cbn [step]; [|unfold P; auto].
    apply loop_keeps; [unfold P; auto | unfold P; auto |].
    intros d Hd.
    destruct (cycle_fields (with_lastTS s' ts) frame now1 now2 d Hd)
      as (Hc & _ & _ & Hhits & _).
    cbn [with_lastTS config hits] in Hc, Hhits.
    unfold P. rewrite Hc, Hhits, HN'. split; [reflexivity|].
    apply push_hit_length. exact Hlen'. }
  destruct HP as [_ H]. exact H.
Qed.

Lemma step_passed_time (s : Session) (e : Event) :
  passed s = true ->
  passed (step s e) = true /\ passStartedAt (step s e) = passStartedAt s.
Proof.
  intros Hp. split; [apply step_keeps_passed; exact Hp|].
  destruct e as [ts frame now1 now2|]; cbn [step]; [|reflexivity].
  apply (loop_keeps (fun s' => passStartedAt s' = passStartedAt s));
    [reflexivity | reflexivity |].
  intros d Hd.
  destruct (cycle_fields (with_lastTS s ts) frame now1 now2 d Hd)
    as (_ & _ & _ & _ & _ & Hat).
  cbn [with_lastTS passed passStartedAt hits config] in Hat.
  rewrite Hp, andb_false_r in Hat. exact Hat.
Qed.

(** X9: the entry time is recorded once: in a passed session no event
    changes [passStartedAt]. *)
Theorem entry_time_is_kept (s : Session) (events : list Event) :
  passed s = true ->
  passStartedAt (run s events) = passStartedAt s.
Proof.
  intros Hp.
  pose (P := fun s' : Session =>
               passed s' = true /\ passStartedAt s' = passStartedAt s).
  assert (HP : P (run s events)).
  { apply run_keeps_always; [|unfold P; auto].
    intros s' e (Hp' & Hat').
    destruct (step_passed_time s' e Hp') as [Hp'' Hat'']. unfold P.
    rewrite Hat''. auto. }
  destruct HP as [_ H]. exact H.
Qed.

End Runs.

Section Reporting.

Context {cv : OpenCV}.

Lemma step_no_overlay_once_passed (s : Session) (e : Event) :
  (passed s = true -> lastQuad s = None /\ passStartedAt s <> None) ->
  passed (step s e) = true ->
  lastQuad (step s e) = None /\ passStartedAt (step s e) <> None.
Proof.
  intros Hinv. destruct e as [ts frame now1 now2|]; cbn [step].
  - apply (loop_keeps
             (fun s' => passed s' = true ->
                        lastQuad s' = None /\ passStartedAt s' <> None));
      [exact Hinv | exact Hinv |].
    intros d Hd Hp'.
    destruct (cycle_fields (with_lastTS s ts) frame now1 now2 d Hd)
      as (_ & _ & _ & _ & Hpass & Hat).
    destruct (cycle_report (with_lastTS s ts) frame now1 now2 d Hd)
      as ([Hq | (Hnp & _)] & _); [|congruence].
    split; [exact Hq|].
    cbn [with_lastTS config hits passed passStartedAt] in Hpass, Hat.
    rewrite Hat. rewrite Hp' in Hpass.
    destruct (some_hit _ && negb (passed s)); [discriminate|].
    apply Hinv. symmetry. exact Hpass.
  - cbn [stopDetection passed lastQuad passStartedAt]. intros Hp.
    split; [reflexivity | apply Hinv; exact Hp].
Qed.

(** X10: in a session started by [startDetection], whenever [passed] is
    true there is no overlay quadrilateral and the entry time is set. *)
Theorem passed_session_has_no_overlay (s : Session) (ui : Inputs)
  (events : list Event) :
  refs s <> [] ->
  passed (run (startDetection s true ui) events) = true ->
  lastQuad (run (startDetection s true ui) events) = None
  /\ passStartedAt (run (startDetection s true ui) events) <> None.
Proof.
  intros Hrefs.
  apply (run_keeps_always
           (fun s' => passed s' = true ->
                      lastQuad s' = None /\ passStartedAt s' <> None)).
  - intros s' e. apply step_no_overlay_once_passed.
  - destruct (startDetection_resets s ui Hrefs) as [Hp _]. congruence.
Qed.

Lemma step_running (s : Session) (e : Event) :
  is_tick e ->
  isRunning (step s e) = isRunning s
  \/ (EXIT_ON_PASS (config s) = true /\ passed (step s e) = true).
Proof.
  destruct e as [ts frame now1 now2|]; cbn [is_tick step]; [intros _ | intros []].
  apply (loop_keeps
           (fun s' => isRunning s' = isRunning s
                      \/ (EXIT_ON_PASS (config s) = true /\ passed s' = true)));
    [auto | auto |].
  intros d Hd.
  destruct (cycle_report (with_lastTS s ts) frame now1 now2 d Hd)
    as (_ & [Hrun | (_ & Hexit & Hp)] & _); auto.
Qed.

Lemma run_stays_passed (events : list Event) :
  forall s, passed s = true -> passed (run s events) = true.
Proof.
  intros s Hp. apply (run_keeps_always (fun s' => passed s' = true)); [|exact Hp].
  intros s' e. apply step_keeps_passed.
Qed.

(** X14: calls of the loop stop a session only through the auto-exit:
    with [EXIT_ON_PASS] off, or as long as the session has not passed, a
    run of ticks leaves [isRunning] as it was. *)
Theorem only_the_auto_exit_stops (s : Session) (events : list Event) :
  Forall is_tick events ->
  EXIT_ON_PASS (config s) = false \/ passed (run s events) = false ->
  isRunning (run s events) = isRunning s.
Proof.
  revert s. induction events as [|e rest IH]; intros s Hall Hcase; [reflexivity|].
  inversion Hall as [|? ? He Hrest]; subst.
  change (run s (e :: rest)) with (run (step s e) rest) in *.
  destruct (step_config s e) as [Hc _].
  destruct (step_running s e He) as [Hrun | [Hexit Hp]].
  - rewrite <- Hrun. apply IH; [exact Hrest|]. rewrite Hc. exact Hcase.
  - destruct Hcase as [Hoff | Hnp]; [congruence|].
    rewrite (run_stays_passed rest _ Hp) in Hnp. discriminate.
Qed.

(** X12: with [SHOW_DEBUG] off no event ever sets an overlay
    quadrilateral. *)
Theorem no_overlay_without_debug (s : Session) (events : list Event) :
  SHOW_DEBUG (config s) = false ->
  lastQuad s = None ->
  lastQuad (run s events) = None.
Proof.
  intros Hoff Hq.
  pose (P := fun s' : Session => SHOW_DEBUG (config s') = false /\ lastQuad s' = None).
  assert (HP : P (run s events)).
  { apply run_keeps_always; [|unfold P; auto].
    intros s' e (Hoff' & Hq').
    destruct (step_config s' e) as [Hc _]. unfold P. rewrite Hc.
    split; [exact Hoff'|].
    destruct e as [ts frame now1 now2|]; cbn [step]; [|reflexivity].
    apply (loop_keeps (fun s'' => lastQuad s'' = None)); [auto | auto |].
    intros d Hd.
    destruct (cycle_report (with_lastTS s' ts) frame now1 now2 d Hd)
      as ([Hnone | (_ & Hon & _)] & _); [exact Hnone|].
    cbn [with_lastTS config] in Hon. congruence. }
  destruct HP as [_ H]. exact H.
Qed.

Lemma step_output (s : Session) (e : Event) :
  (isRunning s = true -> passed s = true -> output s = "1"%string) ->
  isRunning (step s e) = true -> passed (step s e) = true ->
  output (step s e) = "1"%string.
Proof.
  intros Hinv. destruct e as [ts frame now1 now2|]; cbn [step].
  - apply (loop_keeps
             (fun s' => isRunning s' = true -> passed s' = true ->
                        output s' = "1"%string));
      [exact Hinv | exact Hinv |].
    intros d Hd.
    destruct (cycle_report (with_lastTS s ts) frame now1 now2 d Hd) as (_ & _ & H).
    exact H.
  - cbn [stopDetection isRunning]. discriminate.
Qed.

(** X11: in a session started by [startDetection], while the session
    runs and has passed the output element reads 1. *)
Theorem output_reads_one_once_passed (s : Session) (ui : Inputs)
  (events : list Event) :
  refs s <> [] ->
  isRunning (run (startDetection s true ui) events) = true ->
  passed (run (startDetection s true ui) events) = true ->
  output (run (startDetection s true ui) events) = "1"%string.
Proof.
  intros Hrefs.
  apply (run_keeps_always
           (fun s' => isRunning s' = true -> passed s' = true ->
                      output s' = "1"%string)).
  - intros s' e. apply step_output.
  - destruct (startDetection_resets s ui Hrefs) as [Hp _]. congruence.
Qed.

End Reporting.

(** ** The fallback: points, skipped references, and what backs a hit *)

Lemma build_points_None (refKp frameKp : list KeyPoint) (good : list DMatch) :
  build_points refKp frameKp good = None <->
  exists g, In g good
            /\ ((length refKp <= queryIdx g)%nat \/ (length frameKp <= trainIdx g)%nat).
Proof.
  induction good as [|g rest IH]; cbn [build_points].
  - split; [discriminate | intros (g & [] & _)].
  - destruct (nth_error refKp (queryIdx g)) as [rk|] eqn:Hq.
    + destruct (nth_error frameKp (trainIdx g)) as [fk|] eqn:Ht.
      * assert (Hqi : (queryIdx g < length refKp)%nat)
          by (apply nth_error_Some; congruence).
        assert (Hti : (trainIdx g < length frameKp)%nat)
          by (apply nth_error_Some; congruence).
        destruct (build_points refKp frameKp rest) as [[s d]|].
        -- split; [discriminate|].
           intros (g' & [<- | Hin] & Hbad); [lia|].
           destruct IH as [_ IH].
           assert (Hnone : Some (s, d) = None) by (apply IH; exists g'; auto).
           discriminate.
        -- split; [|reflexivity]. intros _.
           destruct IH as [IH _]. destruct (IH eq_refl) as (g' & Hin & Hbad).
           exists g'. cbn [In]. auto.
      * split; [|reflexivity]. intros _. exists g. cbn [In].
        split; [auto|]. right. apply nth_error_None. exact Ht.
    + split; [|reflexivity]. intros _. exists g. cbn [In].
      split; [auto|]. left. apply nth_error_None. exact Hq.
Qed.

Lemma build_points_Some (refKp frameKp : list KeyPoint) (good : list DMatch) :
  (forall g, In g good ->
             (queryIdx g < length refKp)%nat /\ (trainIdx g < length frameKp)%nat) ->
  exists pts, build_points refKp frameKp good = Some pts.
Proof.
  intros Hin. destruct (build_points refKp frameKp good) as [pts|] eqn:Hb;
    [exists pts; reflexivity|].
  apply build_points_None in Hb. destruct Hb as (g & Hg & Hbad).
  destruct (Hin g Hg). lia.
Qed.

Lemma build_points_nth (refKp frameKp : list KeyPoint) (good : list DMatch) :
  forall srcPts dstPts,
    build_points refKp frameKp good = Some (srcPts, dstPts) ->
    length srcPts = (2 * length good)%nat
    /\ length dstPts = (2 * length good)%nat
    /\ forall i g,
         nth_error good i = Some g ->
         exists rk fk,
           nth_error refKp (queryIdx g) = Some rk
           /\ nth_error frameKp (trainIdx g) = Some fk
           /\ nth_error srcPts (2 * i) = Some (pt_x rk)
           /\ nth_error srcPts (2 * i + 1) = Some (pt_y rk)
           /\ nth_error dstPts (2 * i) = Some (pt_x fk)
           /\ nth_error dstPts (2 * i + 1) = Some (pt_y fk).
Proof.
  induction good as [|g0 rest IH]; intros srcPts dstPts; cbn [build_points].
  - intros Heq. injection Heq as <- <-. repeat split.
    intros [|i] g Hg; discriminate.
  - destruct (nth_error refKp (queryIdx g0)) as [rk|] eqn:Hq; [|discriminate].
    destruct (nth_error frameKp (trainIdx g0)) as [fk|] eqn:Ht; [|discriminate].
    destruct (build_points refKp frameKp rest) as [[s d]|]; [|discriminate].
    intros Heq. injection Heq as <- <-.
    destruct (IH s d eq_refl) as (Hs & Hd & Hnth).
    cbn [length]. split; [lia|]. split; [lia|].
    intros [|i] g Hg.
    + cbn in Hg. injection Hg as <-. exists rk, fk. repeat split; assumption.
    + cbn [nth_error] in Hg. destruct (Hnth i g Hg) as (rk' & fk' & H1 & H2 & H3 & H4 & H5 & H6).
      exists rk', fk'. split; [exact H1|]. split; [exact H2|].
      replace (2 * S i)%nat with (S (S (2 * i))) by lia.
      replace (S (S (2 * i)) + 1)%nat with (S (S (2 * i + 1))) by lia.
      cbn [nth_error]. auto.
Qed.

(** X18: the point arrays are built exactly when every match index lies
    inside its keypoint vector (otherwise the cycle throws); they then hold
    two coordinates per match, the reference keypoint of the match in
    [srcPts] and its frame keypoint in [dstPts], in the order of the
    matches. *)
Theorem build_points_in_range (refKp frameKp : list KeyPoint) (good : list DMatch) :
  (build_points refKp frameKp good = None <->
   exists g, In g good
             /\ ((length refKp <= queryIdx g)%nat
                 \/ (length frameKp <= trainIdx g)%nat))
  /\ (forall srcPts dstPts,
        build_points refKp frameKp good = Some (srcPts, dstPts) ->
        length srcPts = (2 * length good)%nat
        /\ length dstPts = (2 * length good)%nat
        /\ forall i g,
             nth_error good i = Some g ->
             exists rk fk,
               nth_error refKp (queryIdx g) = Some rk
               /\ nth_error frameKp (trainIdx g) = Some fk
               /\ nth_error srcPts (2 * i) = Some (pt_x rk)
               /\ nth_error srcPts (2 * i + 1) = Some (pt_y rk)
               /\ nth_error dstPts (2 * i) = Some (pt_x fk)
               /\ nth_error dstPts (2 * i + 1) = Some (pt_y fk)).
Proof.
  split; [apply build_points_None | apply build_points_nth].
Qed.

Lemma countNonZero_nonneg (mask : list Z) : 0 <= countNonZero mask.
Proof. unfold countNonZero. lia. Qed.

Lemma ratio_test_nan (matches : list (list DMatch)) : ratio_test S754_nan matches = [].
Proof.
  induction matches as [|mv rest IH]; cbn [ratio_test]; [reflexivity|].
  destruct mv as [|m [|n [|c t]]]; try exact IH.
  replace (flt (distance m) (fmul S754_nan (distance n))) with false; [exact IH|].
  unfold flt, fmul, SFltb, SFmul, SFcompare. destruct (distance m); reflexivity.
Qed.

Section FallbackFacts.

Context {cv : OpenCV}.
Variable cfg : Config.
Variable frameKp : list KeyPoint.
Variable desFrame : list Descriptor.

Lemma good_matches_in_range (ref : Ref) :
  indices_in_range frameKp desFrame ref ->
  forall g, In g (good_matches cfg desFrame ref) ->
            (queryIdx g < length (kp ref))%nat /\ (trainIdx g < length frameKp)%nat.
Proof.
  intros Hrange g Hg. unfold good_matches in Hg.
  apply ratio_test_In in Hg. destruct Hg as (n & Hin & _).
  apply (Hrange [g; n] g Hin). left. reflexivity.
Qed.

Lemma eval_reference_total (ref : Ref) (b : Best) :
  indices_in_range frameKp desFrame ref ->
  exists b' fl, eval_reference cfg frameKp desFrame ref b = Some (b', fl).
Proof.
  intros Hrange. unfold eval_reference. fold (good_matches cfg desFrame ref).
  destruct (lt_num _ _); [eauto|].
  destruct (build_points_Some (kp ref) frameKp (good_matches cfg desFrame ref)
              (good_matches_in_range ref Hrange)) as [[s d] Hpts].
  rewrite Hpts. eauto.
Qed.

Lemma fallback_loop_total (refs : list Ref) :
  (forall ref, In ref refs -> indices_in_range frameKp desFrame ref) ->
  forall b, exists b', fallback_loop cfg frameKp desFrame refs b = Some b'.
Proof.
  induction refs as [|r rest IH]; intros Hrange b; cbn [fallback_loop]; [eauto|].
  destruct (eval_reference_total r b (Hrange r (or_introl eq_refl)))
    as (b' & fl & He).
  rewrite He. destruct fl; [|eauto].
  apply IH. intros ref Hin. apply Hrange. right. exact Hin.
Qed.

Lemma eval_reference_few (ref : Ref) (b : Best) :
  lt_num (Z.of_nat (length (good_matches cfg desFrame ref))) (MIN_GOOD_MATCHES cfg)
  = true ->
  eval_reference cfg frameKp desFrame ref b = Some (b, Continue).
Proof.
  intros Hfew. unfold eval_reference. fold (good_matches cfg desFrame ref).
  rewrite Hfew. reflexivity.
Qed.

Lemma fallback_loop_few (refs : list Ref) (b : Best) :
  (forall ref, In ref refs ->
     lt_num (Z.of_nat (length (good_matches cfg desFrame ref))) (MIN_GOOD_MATCHES cfg)
     = true) ->
  fallback_loop cfg frameKp desFrame refs b = Some b.
Proof.
  induction refs as [|r rest IH]; intros Hfew; cbn [fallback_loop]; [reflexivity|].
  rewrite (eval_reference_few r b (Hfew r (or_introl eq_refl))).
  apply IH. intros ref Hin. apply Hfew. right. exact Hin.
Qed.

(** A reference either leaves the best count as it was or sets it to the
    inlier count of its own fit. *)
Lemma eval_reference_source (ref : Ref) (b b' : Best) (fl : Flow) :
  eval_reference cfg frameKp desFrame ref b = Some (b', fl) ->
  bestInliers b' = bestInliers b
  \/ fitted cfg frameKp desFrame ref (bestInliers b').
Proof.
  unfold eval_reference. fold (good_matches cfg desFrame ref).
  destruct (lt_num _ _).
  - intros Heq. injection Heq as <- <-. left. reflexivity.
  - destruct (build_points _ _ _) as [[srcPts dstPts]|] eqn:Hpts; [|discriminate].
    intros Heq. injection Heq as <- <-. unfold fit_reference.
    destruct (findHomography srcPts dstPts) as [[H mask]|] eqn:Hfit;
      [|left; reflexivity].
    destruct (H_empty H) eqn:Hempty; [left; reflexivity|].
    destruct (countNonZero mask >? bestInliers b); [|left; reflexivity].
    right. exists srcPts, dstPts, H, mask.
    destruct (SHOW_DEBUG cfg); [destruct (perspectiveTransform _ _)|]; cbn; auto.
Qed.

Lemma fallback_loop_source (refs : list Ref) :
  forall b b',
    fallback_loop cfg frameKp desFrame refs b = Some b' ->
    bestInliers b' = bestInliers b
    \/ exists ref, In ref refs /\ fitted cfg frameKp desFrame ref (bestInliers b').
Proof.
  induction refs as [|r rest IH]; intros b b'; cbn [fallback_loop].
  - intros Heq. injection Heq as <-. left. reflexivity.
  - destruct (eval_reference cfg frameKp desFrame r b) as [[b1 fl]|] eqn:He;
      [|discriminate].
    pose proof (eval_reference_source r b b1 fl He) as Hsrc.
    destruct fl.
    + intros Hloop. destruct (IH b1 b' Hloop) as [Heq | (ref & Hin & Hfit)].
      * rewrite Heq. destruct Hsrc as [-> | Hfit]; [left; reflexivity|].
        right. exists r. cbn [In]. auto.
      * right. exists ref. cbn [In]. auto.
    + intros Heq. injection Heq as <-.
      destruct Hsrc as [-> | Hfit]; [left; reflexivity|].
      right. exists r. cbn [In]. auto.
Qed.

End FallbackFacts.

Section FallbackProperties.

Context {cv : OpenCV}.
Variable cfg : Config.
Variable refs : list Ref.
Variable frame : Mat.
Variable kpFrame : list KeyPoint.
Variable desFrame : list Descriptor.
Hypothesis frame_features : detectAndCompute frame = Some (kpFrame, desFrame).

(** X17: when the features of the frame are extracted and every index the
    matcher returns points into the keypoint vectors, the cycle does not
    throw: it produces a detection. *)
Theorem cycle_completes_in_range :
  (forall ref, In ref refs -> indices_in_range kpFrame desFrame ref) ->
  exists d, detect cfg refs frame = Some d.
Proof.
  intros Hrange.
  assert (Hb : exists b, orb_fallback cfg refs frame = Some b).
  { unfold orb_fallback. rewrite frame_features.
    destruct (Z.of_nat (length desFrame) >=? 8); [|eauto].
    apply fallback_loop_total. exact Hrange. }
  destruct Hb as [b Hb]. rewrite (detect_unfold cfg refs frame b Hb). eauto.
Qed.

(** X19: when every reference has fewer surviving matches than
    [MIN_GOOD_MATCHES], no homography is fitted: the fallback reports 0
    inliers and no quadrilateral, whatever [findHomography] would do. *)
Theorem too_few_matches_no_fit :
  (forall ref, In ref refs ->
     lt_num (Z.of_nat (length (good_matches cfg desFrame ref))) (MIN_GOOD_MATCHES cfg)
     = true) ->
  orb_fallback cfg refs frame = Some Best0.
Proof.
  intros Hfew. unfold orb_fallback. rewrite frame_features.
  destruct (Z.of_nat (length desFrame) >=? 8); [|reflexivity].
  apply fallback_loop_few. exact Hfew.
Qed.

(** X20: when [CONF_RATIO] is NaN no match survives the ratio test, so
    with [MIN_GOOD_MATCHES] at least 1 the fallback reports 0 inliers and
    no quadrilateral on every frame. *)
Theorem nan_ratio_keeps_nothing (n : Z) :
  CONF_RATIO cfg = S754_nan ->
  MIN_GOOD_MATCHES cfg = Some n ->
  1 <= n ->
  (forall ref, good_matches cfg desFrame ref = [])
  /\ orb_fallback cfg refs frame = Some Best0.
Proof.
  intros Hnan Hmin Hn.
  assert (Hnone : forall ref, good_matches cfg desFrame ref = []).
  { intros ref. unfold good_matches. rewrite Hnan. apply ratio_test_nan. }
  split; [exact Hnone|].
  unfold orb_fallback. rewrite frame_features.
  destruct (Z.of_nat (length desFrame) >=? 8); [|reflexivity].
  apply fallback_loop_few. intros ref _. rewrite Hnone, Hmin. cbn.
  apply Z.ltb_lt. lia.
Qed.

(** X21: the best inlier count the fallback reports is never negative,
    and when it is not 0 it is the inlier count of the fit of one of the
    references, a fit that returned a matrix that is not empty. *)
Theorem best_inliers_come_from_a_fit (b : Best) :
  orb_fallback cfg refs frame = Some b ->
  0 <= bestInliers b
  /\ (bestInliers b = 0
      \/ exists ref, In ref refs /\ fitted cfg kpFrame desFrame ref (bestInliers b)).
Proof.
  unfold orb_fallback. rewrite frame_features.
  destruct (Z.of_nat (length desFrame) >=? 8).
  - intros Hloop.
    destruct (fallback_loop_source cfg kpFrame desFrame refs Best0 b Hloop)
      as [Heq | (ref & Hin & Hfit)].
    + cbn in Heq. rewrite Heq. split; [lia | left; reflexivity].
    + split; [|right; exists ref; auto].
      destruct Hfit as (s & d & H & mask & _ & _ & _ & ->).
      apply countNonZero_nonneg.
  - intros Heq. injection Heq as <-. cbn. split; [lia | left; reflexivity].
Qed.

(** X23: a cycle is a hit only when the frame has at least 8 descriptors,
    some reference's template clears the threshold, and, for a bar of at
    least 1, some reference's fit has at least that many inliers. *)
Theorem hit_is_backed (d : Detection) (n : Z) :
  detect cfg refs frame = Some d ->
  waferPresent d = true ->
  MIN_INLIERS cfg = Some n ->
  1 <= n ->
  8 <= Z.of_nat (length desFrame)
  /\ (exists ref, In ref refs /\ clears cfg frame ref)
  /\ (exists ref inliers,
        In ref refs /\ fitted cfg kpFrame desFrame ref inliers /\ n <= inliers).
Proof.
  intros Hd Hw Hmin Hn.
  destruct (detect_some cfg refs frame d Hd) as (b & Hb & _ & _ & Hflag).
  rewrite Hw in Hflag. symmetry in Hflag. apply andb_true_iff in Hflag.
  destruct Hflag as [Hgate Hbar].
  rewrite Hmin in Hbar. cbn in Hbar. apply Z.geb_le in Hbar.
  apply template_gate_spec in Hgate. destruct Hgate as [_ Hclear].
  assert (Hrows : 8 <= Z.of_nat (length desFrame)).
  { unfold orb_fallback in Hb. rewrite frame_features in Hb.
    destruct (Z.geb_spec (Z.of_nat (length desFrame)) 8); [lia|].
    injection Hb as <-. cbn in Hbar. lia. }
  split; [exact Hrows|]. split; [exact Hclear|].
  unfold orb_fallback in Hb. rewrite frame_features in Hb.
  destruct (Z.of_nat (length desFrame) >=? 8).
  - destruct (fallback_loop_source cfg kpFrame desFrame refs Best0 b Hb)
      as [Heq | (ref & Hin & Hfit)].
    + cbn in Heq. lia.
    + exists ref, (bestInliers b). auto.
  - injection Hb as <-. cbn in Hbar. lia.
Qed.

End FallbackProperties.

(** ** The loaders: order, rejection, and what a loaded reference holds *)

Section LoaderProperties.

Context {cv : OpenCV}.
Variable cfg : Config.

Lemma settle_all_acc (files : list ImageFile) :
  forall acc, settle_all cfg files acc = acc ++ settle_all cfg files [].
Proof.
  induction files as [|f rest IH]; intros acc; cbn [settle_all].
  - rewrite app_nil_r. reflexivity.
  - destruct (_loadRefFromPath cfg f) as [r|]; [|apply IH].
    rewrite (IH (acc ++ [r])), (IH ([] ++ [r])), <- app_assoc. reflexivity.
Qed.

Lemma settle_all_length (files : list ImageFile) :
  forall acc, (length (settle_all cfg files acc) <= length acc + length files)%nat.
Proof.
  induction files as [|f rest IH]; intros acc; cbn [settle_all length]; [lia|].
  destruct (_loadRefFromPath cfg f) as [r|].
  - specialize (IH (acc ++ [r])). rewrite length_app in IH. cbn [length] in IH. lia.
  - specialize (IH acc). lia.
Qed.

(** X24: [loadReferenceImages] handles the files one by one and keeps
    their order: a batch in two parts loads the references of the first
    part followed by those of the second, and never more references than
    files. *)
Theorem loader_keeps_order (files1 files2 : list ImageFile) :
  loadReferenceImages cfg (files1 ++ files2)
  = loadReferenceImages cfg files1 ++ loadReferenceImages cfg files2
  /\ (length (loadReferenceImages cfg (files1 ++ files2))
      <= length (files1 ++ files2))%nat.
Proof.
  unfold loadReferenceImages. split.
  - rewrite settle_all_app. apply settle_all_acc.
  - apply (settle_all_length (files1 ++ files2) []).
Qed.

Lemma await_each_app (pre post : list ImageFile) :
  (forall g, In g pre -> _processRefFile cfg g <> Rejected) ->
  forall acc,
    await_each cfg (pre ++ post) acc = await_each cfg post (settle_all cfg pre acc).
Proof.
  induction pre as [|g pre IH]; intros Hok acc; cbn [app await_each settle_all];
    [reflexivity|].
  assert (Hg := Hok g (or_introl eq_refl)).
  assert (Hpre : forall g', In g' pre -> _processRefFile cfg g' <> Rejected)
    by (intros g' Hin; apply Hok; right; exact Hin).
  unfold _processRefFile, _loadRefFromPath in *.
  destruct (picture g) as [p|]; [|congruence].
  destruct (build_ref cfg (file_name g) p); try congruence; apply IH; exact Hpre.
Qed.

(** X25: [loadCustomReferenceImages] ends at the first file whose promise
    rejects (an image that does not decode, or an exception while it is
    processed): exactly the references of the files before it are loaded,
    and the files after it are not looked at. *)
Theorem custom_loader_stops_at_rejection (pre post : list ImageFile) (f : ImageFile) :
  (forall g, In g pre -> _processRefFile cfg g <> Rejected) ->
  _processRefFile cfg f = Rejected ->
  loadCustomReferenceImages cfg (pre ++ f :: post)
  = (loadReferenceImages cfg pre, false).
Proof.
  intros Hpre Hrej. unfold loadCustomReferenceImages, loadReferenceImages.
  rewrite (await_each_app pre (f :: post) Hpre). cbn [await_each].
  rewrite Hrej. reflexivity.
Qed.

Lemma await_each_In (files : list ImageFile) :
  forall acc r,
    In r (fst (await_each cfg files acc)) ->
    In r acc \/ exists f, In f files /\ _processRefFile cfg f = Fulfilled (Some r).
Proof.
  induction files as [|f rest IH]; intros acc r; cbn [await_each]; [auto|].
  destruct (_processRefFile cfg f) as [[r0|]|] eqn:Hf.
  - intros Hin. apply IH in Hin. destruct Hin as [Hin | (g & Hg & Hr)].
    + apply in_app_iff in Hin. destruct Hin as [Hin | [<- | []]]; [auto|].
      right. exists f. cbn [In]. auto.
    + right. exists g. cbn [In]. auto.
  - intros Hin. apply IH in Hin. destruct Hin as [Hin | (g & Hg & Hr)]; [auto|].
    right. exists g. cbn [In]. auto.
  - cbn [fst]. auto.
Qed.

(** What [build_ref] puts into a reference. *)
Lemma build_ref_fields (nm : string) (p : Picture) (r : Ref) :
  build_ref cfg nm p = Usable r ->
  name r = nm
  /\ detectAndCompute (gray p) = Some (kp r, des r)
  /\ 8 <= Z.of_nat (length (des r))
  /\ (exists t,
        resize (gray p) (TMPL_SIZE cfg) = Some t
        /\ tmpl r = Some (if EDGE_TMPL cfg then Canny t else t))
  /\ allocMat (PROC_H cfg - TMPL_SIZE cfg + 1) (PROC_W cfg - TMPL_SIZE cfg + 1) = true
  /\ res r = Some (PROC_H cfg - TMPL_SIZE cfg + 1, PROC_W cfg - TMPL_SIZE cfg + 1)
  /\ length (corners r) = 8%nat
  /\ dataUrl r = pic_dataUrl p.
Proof.
  unfold build_ref.
  destruct (detectAndCompute (gray p)) as [[kps descs]|]; [|discriminate].
  destruct (Z.ltb_spec (Z.of_nat (length descs)) 8) as [|Hrows]; [discriminate|].
  destruct (resize (gray p) (TMPL_SIZE cfg)) as [resized|]; [|discriminate].
  destruct (allocMat _ _) eqn:Halloc; [|discriminate].
  intros Heq. injection Heq as <-. cbn. repeat split; auto.
  exists resized. auto.
Qed.

Lemma loaded_from_file (files : list ImageFile) (r : Ref) :
  In r (loadReferenceImages cfg files)
  \/ In r (fst (loadCustomReferenceImages cfg files)) ->
  exists f p,
    In f files /\ picture f = Some p /\ build_ref cfg (file_name f) p = Usable r.
Proof.
  unfold loadReferenceImages, loadCustomReferenceImages. intros [Hin | Hin].
  - apply settle_all_In in Hin. destruct Hin as [[] | (f & Hf & Hr)].
    unfold _loadRefFromPath in Hr.
    destruct (picture f) as [p|] eqn:Hp; [|discriminate].
    destruct (build_ref cfg (file_name f) p) eqn:Hb; try discriminate.
    injection Hr as <-. exists f, p. auto.
  - apply await_each_In in Hin. destruct Hin as [[] | (f & Hf & Hr)].
    unfold _processRefFile in Hr.
    destruct (picture f) as [p|] eqn:Hp; [|discriminate].
    destruct (build_ref cfg (file_name f) p) eqn:Hb; try discriminate.
    injection Hr as <-. exists f, p. auto.
Qed.

(** X26: a reference loaded by either loader comes from a file of the
    batch: it has the file's name and data URL, the keypoints and the at
    least 8 descriptors extracted from its picture, a template made from
    the picture resized without an exception, and a response buffer,
    allocated without an exception, of [PROC_H - TMPL_SIZE + 1] rows and
    [PROC_W - TMPL_SIZE + 1] columns; so the gate's guard on [tmpl] and
    [res] never skips a loaded reference. *)
Theorem loaded_reference_is_complete (files : list ImageFile) (r : Ref) :
  In r (loadReferenceImages cfg files)
  \/ In r (fst (loadCustomReferenceImages cfg files)) ->
  exists f p,
    In f files /\ picture f = Some p
    /\ name r = file_name f
    /\ detectAndCompute (gray p) = Some (kp r, des r)
    /\ 8 <= Z.of_nat (length (des r))
    /\ (exists t,
          resize (gray p) (TMPL_SIZE cfg) = Some t
          /\ tmpl r = Some (if EDGE_TMPL cfg then Canny t else t))
    /\ allocMat (PROC_H cfg - TMPL_SIZE cfg + 1) (PROC_W cfg - TMPL_SIZE cfg + 1)
       = true
    /\ res r = Some (PROC_H cfg - TMPL_SIZE cfg + 1, PROC_W cfg - TMPL_SIZE cfg + 1)
    /\ length (corners r) = 8%nat
    /\ dataUrl r = pic_dataUrl p.
Proof.
  intros Hin. destruct (loaded_from_file files r Hin) as (f & p & Hf & Hp & Hb).
  exists f, p. split; [exact Hf|]. split; [exact Hp|].
  exact (build_ref_fields (file_name f) p r Hb).
Qed.

Lemma settle_all_none (files : list ImageFile) :
  (forall f, In f files -> _loadRefFromPath cfg f = None) ->
  forall acc, settle_all cfg files acc = acc.
Proof.
  induction files as [|f rest IH]; intros Hnone acc; cbn [settle_all]; [reflexivity|].
  rewrite (Hnone f (or_introl eq_refl)). apply IH.
  intros g Hg. apply Hnone. right. exact Hg.
Qed.

End LoaderProperties.

Section Starting.

Context {cv : OpenCV}.

(** X27: when every file of the batch is weak or does not decode,
    [loadReferenceImages] loads nothing, and [startDetection] on a session
    with these references starts nothing: the session is left as it is. *)
Theorem no_start_without_references (s : Session) (camera : bool) (ui : Inputs)
  (files : list ImageFile) :
  (forall f, In f files -> few_descriptors f \/ picture f = None) ->
  refs s = loadReferenceImages (config s) files ->
  loadReferenceImages (config s) files = []
  /\ startDetection s camera ui = s.
Proof.
  intros Hbad Hrefs.
  assert (Hnone : loadReferenceImages (config s) files = []).
  { unfold loadReferenceImages. apply settle_all_none.
    intros f Hf. destruct (Hbad f Hf) as [Hweak | Hpic].
    - apply loadRefFromPath_weak. exact Hweak.
    - unfold _loadRefFromPath. rewrite Hpic. reflexivity. }
  split; [exact Hnone|].
  unfold startDetection. rewrite Hrefs, Hnone. reflexivity.
Qed.

End Starting.

Section BestIsMaximum.

Context {cv : OpenCV}.
Variable cfg : Config.
Variable frameKp : list KeyPoint.
Variable desFrame : list Descriptor.

Lemma fallback_loop_mono (refs : list Ref) :
  forall b b',
    fallback_loop cfg frameKp desFrame refs b = Some b' ->
    bestInliers b <= bestInliers b'.
Proof.
  induction refs as [|r rest IH]; intros b b'; cbn [fallback_loop].
  - intros Heq. injection Heq as <-. lia.
  - destruct (eval_reference cfg frameKp desFrame r b) as [[b1 fl]|] eqn:He;
      [|discriminate].
    pose proof (eval_reference_mono cfg frameKp desFrame r b b1 fl He) as Hmono.
    destruct fl.
    + intros Hloop. apply IH in Hloop. lia.
    + intros Heq. injection Heq as <-. exact Hmono.
Qed.

Lemma eval_reference_covers (ref : Ref) (b b' : Best) (fl : Flow) (inliers : Z) :
  eval_reference cfg frameKp desFrame ref b = Some (b', fl) ->
  lt_num (Z.of_nat (length (good_matches cfg desFrame ref))) (MIN_GOOD_MATCHES cfg)
  = false ->
  fitted cfg frameKp desFrame ref inliers ->
  inliers <= bestInliers b'.
Proof.
  unfold eval_reference. fold (good_matches cfg desFrame ref).
  intros He Henough (srcPts & dstPts & H & mask & Hpts & Hfit & Hempty & ->).
  rewrite Henough, Hpts in He. injection He as <- _.
  unfold fit_reference. rewrite Hfit, Hempty.
  destruct (Z.gtb_spec (countNonZero mask) (bestInliers b)); [|lia].
  destruct (SHOW_DEBUG cfg); [destruct (perspectiveTransform _ _)|]; cbn; lia.
Qed.

(** X22: when the loop over the references ends with the bar not met,
    every reference was evaluated, and the best count is at least the
    inlier count of every reference that had enough surviving matches and
    a fit: the count reported is the maximum. *)
Theorem best_is_the_maximum (refs : list Ref) (b : Best) :
  fallback_loop cfg frameKp desFrame refs Best0 = Some b ->
  ge_num (bestInliers b) (MIN_INLIERS cfg) = false ->
  forall ref inliers,
    In ref refs ->
    lt_num (Z.of_nat (length (good_matches cfg desFrame ref))) (MIN_GOOD_MATCHES cfg)
    = false ->
    fitted cfg frameKp desFrame ref inliers ->
    inliers <= bestInliers b.
Proof.
  generalize Best0 as b0. revert b.
  induction refs as [|r rest IH]; intros b b0 Hloop Hbar ref inliers Hin;
    [destruct Hin|].
  cbn [fallback_loop] in Hloop.
  destruct (eval_reference cfg frameKp desFrame r b0) as [[b1 fl]|] eqn:He;
    [|discriminate].
  destruct fl.
  - destruct Hin as [<- | Hin].
    + intros Henough Hfit.
      pose proof (eval_reference_covers r b0 b1 Continue inliers He Henough Hfit).
      pose proof (fallback_loop_mono rest b1 b Hloop). lia.
    + apply (IH b b1 Hloop Hbar ref inliers Hin).
  - injection Hloop as <-.
    pose proof (eval_reference_flow cfg frameKp desFrame r b0 b1 Break He) as Hmet.
    cbn in Hmet. congruence.
Qed.

End BestIsMaximum.

Section FirstCycleAndExit.

Context {cv : OpenCV}.

(** X5: the first completed cycle after [startDetection] decides alone:
    at a capacity of at least 1 (or NaN) the session has passed after it
    exactly when that cycle's presence flag is true. *)
Theorem first_cycle_decides_alone (s : Session) (ui : Inputs) (frame : Mat)
  (now1 now2 : float) (d : Detection) :
  refs s <> [] ->
  detect (config (startDetection s true ui)) (refs (startDetection s true ui)) frame
  = Some d ->
  gt_num 1 (SMOOTH_N (config (startDetection s true ui))) = false ->
  passed (cycle (startDetection s true ui) frame now1 now2) = waferPresent d.
Proof.
  intros Hrefs Hd HN.
  destruct (startDetection_resets s ui Hrefs) as [Hp Hh].
  destruct (cycle_fields (startDetection s true ui) frame now1 now2 d Hd)
    as (_ & _ & _ & _ & Hpass & _).
  rewrite Hpass, Hp, Hh. unfold push_hit. cbn [app length].
  change (Z.of_nat 1) with 1. rewrite HN.
  unfold some_hit. cbn. destruct (waferPresent d); reflexivity.
Qed.

(** X15: with [EXIT_ON_PASS] on, a completed cycle of a running session
    that passed at a time [t0] (not 0, not NaN) stops the session exactly
    when the second clock reading is at least [PASS_HOLD_MS] after [t0];
    the stopped session shows output 0 and no overlay, and is still
    passed. *)
Theorem auto_exit_after_hold (s : Session) (frame : Mat) (now1 now2 t0 : float)
  (d : Detection) :
  detect (config s) (refs s) frame = Some d ->
  EXIT_ON_PASS (config s) = true ->
  isRunning s = true ->
  passed s = true ->
  passStartedAt s = Some t0 ->
  truthy (Some t0) = true ->
  isRunning (cycle s frame now1 now2)
  = negb (fge (fsub now2 t0) (PASS_HOLD_MS (config s)))
  /\ passed (cycle s frame now1 now2) = true
  /\ (isRunning (cycle s frame now1 now2) = false ->
      output (cycle s frame now1 now2) = "0"%string
      /\ lastQuad (cycle s frame now1 now2) = None).
Proof.
  intros Hd Hexit Hrun Hp Hat Htruthy.
  unfold cycle. rewrite Hd. cbn zeta.
  rewrite Hp, andb_false_r, Hat, Hexit, Htruthy. cbn [andb].
  destruct (fge (fsub now2 t0) (PASS_HOLD_MS (config s)));
    cbn [negb stopDetection isRunning passed output lastQuad].
  - repeat split; reflexivity.
  - rewrite Hrun. repeat split; try reflexivity; discriminate.
Qed.

End FirstCycleAndExit.

(** ** Concrete scenes for the further properties *)

Lemma no_pass_without_gate_witness :
  passed (run (started default_config [reference 3 9]) [tick 1 6; tick 2 1; tick 3 6])
  = false
  /\ some_hit (hits (run (started default_config [reference 3 9])
                       [tick 1 6; tick 2 1; tick 3 6])) = false.
Proof.
  apply (@no_pass_without_gate cv0 (started default_config [reference 3 9])
           [tick 1 6; tick 2 1; tick 3 6]).
  - reflexivity.
  - reflexivity.
  - repeat constructor; vm_compute; reflexivity.
Defined.

Lemma instant_template_off_never_passes_witness :
  INSTANT_TEMPLATE instant_off = false
  /\ passed (run (started instant_off [reference 3 9]) [tick 1 0; tick 2 0]) = false.
Proof.
  split; [reflexivity|].
  apply (@instant_template_off_never_passes cv0 (started instant_off [reference 3 9])
           [tick 1 0; tick 2 0]); reflexivity.
Defined.

Lemma hit_passes_at_once_witness :
  passed (cycle (started default_config [reference 3 9]) 0%nat (of_Z 41) (of_Z 42))
  = true
  /\ passStartedAt
       (cycle (started default_config [reference 3 9]) 0%nat (of_Z 41) (of_Z 42))
     = Some (of_Z 41).
Proof.
  assert (Hd : exists d,
             @detect cv0 default_config [reference 3 9] 0%nat = Some d
             /\ waferPresent d = true).
  { eexists. split; [vm_compute; reflexivity | reflexivity]. }
  destruct Hd as (d & Hd & Hw).
  destruct (@hit_passes_at_once cv0 (started default_config [reference 3 9]) 0%nat
              (of_Z 41) (of_Z 42) d Hd Hw eq_refl) as [Hp Hat].
  split; [exact Hp | apply Hat; reflexivity].
Defined.

Lemma zero_window_never_passes_witness :
  SMOOTH_N (updateSettings (smooth_input (Some 0)) default_config) = Some 0
  /\ passed (run (started (updateSettings (smooth_input (Some 0)) default_config)
                    [reference 3 9]) [tick 1 0; tick 2 0]) = false
  /\ hits (run (started (updateSettings (smooth_input (Some 0)) default_config)
                  [reference 3 9]) [tick 1 0; tick 2 0]) = [].
Proof.
  split; [reflexivity|].
  apply (@zero_window_never_passes cv0
           (started (updateSettings (smooth_input (Some 0)) default_config)
              [reference 3 9]) [tick 1 0; tick 2 0] 0);
    [reflexivity | lia | reflexivity | reflexivity].
Defined.

Lemma window_is_bounded_witness :
  Z.of_nat (length (hits (run (started default_config [reference 3 9])
                            [tick 1 0; tick 2 6; tick 3 1; tick 4 6; tick 5 0;
                             tick 6 6; tick 7 1]))) <= 5.
Proof.
  apply (@window_is_bounded cv0 (started default_config [reference 3 9])
           [tick 1 0; tick 2 6; tick 3 1; tick 4 6; tick 5 0; tick 6 6; tick 7 1] 5);
    [reflexivity | cbn; lia].
Defined.

Lemma nan_window_never_forgets_witness :
  nth 3 (smoother None [] [false; true; false; false]) false = true <->
  exists j, (j <= 3)%nat /\ nth_error [false; true; false; false] j = Some true.
Proof.
  apply (nan_window_never_forgets [false; true; false; false] 3). cbn. lia.
Defined.

Lemma entry_time_is_kept_witness :
  passed (cycle (started default_config [reference 3 9]) 0%nat (of_Z 41) (of_Z 42))
  = true
  /\ passStartedAt
       (run (cycle (started default_config [reference 3 9]) 0%nat (of_Z 41) (of_Z 42))
          [tick 2 6; tick 3 0; @Stop cv0])
     = Some (of_Z 41).
Proof.
  split; [vm_compute; reflexivity|].
  rewrite (@entry_time_is_kept cv0
             (cycle (started default_config [reference 3 9]) 0%nat (of_Z 41) (of_Z 42))
             [tick 2 6; tick 3 0; @Stop cv0]);
    vm_compute; reflexivity.
Defined.

Lemma passed_session_has_no_overlay_witness :
  passed (run (startDetection (started default_config [reference 3 9]) true no_inputs)
            [tick 1 0; tick 2 0]) = true
  /\ lastQuad (run (startDetection (started default_config [reference 3 9]) true
                      no_inputs) [tick 1 0; tick 2 0]) = None
  /\ passStartedAt (run (startDetection (started default_config [reference 3 9]) true
                           no_inputs) [tick 1 0; tick 2 0]) <> None.
Proof.
  split; [vm_compute; reflexivity|].
  apply (@passed_session_has_no_overlay cv0 (started default_config [reference 3 9])
           no_inputs [tick 1 0; tick 2 0]).
  - discriminate.
  - vm_compute. reflexivity.
Defined.

Lemma only_the_auto_exit_stops_witness :
  isRunning (run (started default_config [reference 3 9]) [tick 1 0; tick 2 6]) = true.
Proof.
  rewrite (@only_the_auto_exit_stops cv0 (started default_config [reference 3 9])
             [tick 1 0; tick 2 6]).
  - reflexivity.
  - repeat constructor.
  - left. reflexivity.
Defined.

Lemma no_overlay_without_debug_witness :
  SHOW_DEBUG (with_show_debug default_config false) = false
  /\ lastQuad (run (started (with_show_debug default_config false) [reference 7 10])
                 [tick 1 0; tick 2 0]) = None.
Proof.
  split; [reflexivity|].
  apply (@no_overlay_without_debug cv0
           (started (with_show_debug default_config false) [reference 7 10])
           [tick 1 0; tick 2 0]); reflexivity.
Defined.

Lemma output_reads_one_once_passed_witness :
  (isRunning (run (startDetection (started default_config [reference 3 9]) true
                     no_inputs) [tick 1 0; tick 2 6]) = true
   /\ passed (run (startDetection (started default_config [reference 3 9]) true
                     no_inputs) [tick 1 0; tick 2 6]) = true)
  /\ output (run (startDetection (started default_config [reference 3 9]) true
                    no_inputs) [tick 1 0; tick 2 6]) = "1"%string.
Proof.
  split; [split; vm_compute; reflexivity|].
  apply (@output_reads_one_once_passed cv0 (started default_config [reference 3 9])
           no_inputs [tick 1 0; tick 2 6]).
  - discriminate.
  - vm_compute. reflexivity.
  - vm_compute. reflexivity.
Defined.

(** In the canned matcher every index points into the keypoint vectors. *)
Lemma canned_indices_in_range (img n : nat) :
  (2 <= n)%nat ->
  @indices_in_range cv0 (keypoints 8) (seq 0 8) (reference img n).
Proof.
  intros Hn mv m Hmv Hm.
  cbn [knnMatch cv0 des reference] in Hmv. unfold two_nearest in Hmv.
  rewrite length_seq in Hmv. apply in_map_iff in Hmv.
  destruct Hmv as (i & <- & Hi). apply in_seq in Hi.
  cbn [kp reference]. unfold keypoints. rewrite !length_map, !length_seq.
  destruct Hm as [<- | [<- | []]]; cbn [queryIdx trainIdx]; lia.
Defined.

Lemma cycle_completes_in_range_witness :
  exists d, @detect cv0 default_config [reference 7 10; reference 3 9] 0%nat = Some d.
Proof.
  apply (@cycle_completes_in_range cv0 default_config [reference 7 10; reference 3 9]
           0%nat (keypoints 8) (seq 0 8) eq_refl).
  intros ref [<- | [<- | []]]; apply canned_indices_in_range; lia.
Defined.

Lemma too_few_matches_no_fit_witness :
  @orb_fallback cv0 (updateSettings (min_good_input (Some 20)) default_config)
    [reference 7 10; reference 3 9] 0%nat = Some Best0.
Proof.
  apply (@too_few_matches_no_fit cv0
           (updateSettings (min_good_input (Some 20)) default_config)
           [reference 7 10; reference 3 9] 0%nat (keypoints 8) (seq 0 8) eq_refl).
  intros ref [<- | [<- | []]]; vm_compute; reflexivity.
Defined.

Lemma nan_ratio_keeps_nothing_witness :
  CONF_RATIO (updateSettings (ratio_input S754_nan) default_config) = S754_nan
  /\ @orb_fallback cv0 (updateSettings (ratio_input S754_nan) default_config)
       [reference 7 10; reference 3 9] 0%nat = Some Best0.
Proof.
  split; [reflexivity|].
  refine (proj2 (@nan_ratio_keeps_nothing cv0
                   (updateSettings (ratio_input S754_nan) default_config)
                   [reference 7 10; reference 3 9] 0%nat (keypoints 8) (seq 0 8)
                   eq_refl 3 eq_refl eq_refl _)).
  lia.
Defined.

Lemma best_inliers_come_from_a_fit_witness :
  0 <= 10
  /\ (10 = 0
      \/ exists ref,
           In ref [reference 7 10; reference 3 9]
           /\ @fitted cv0 default_config (keypoints 8) (seq 0 8) ref 10).
Proof.
  apply (@best_inliers_come_from_a_fit cv0 default_config
           [reference 7 10; reference 3 9] 0%nat (keypoints 8) (seq 0 8) eq_refl
           {| bestInliers := 10; bestQuad := Some (corners (reference 3 9)) |}).
  vm_compute. reflexivity.
Defined.

Lemma hit_is_backed_witness :
  8 <= Z.of_nat (length (seq 0 8))
  /\ (exists ref, In ref [reference 3 9] /\ @clears cv0 default_config 0%nat ref)
  /\ (exists ref inliers,
        In ref [reference 3 9]
        /\ @fitted cv0 default_config (keypoints 8) (seq 0 8) ref inliers
        /\ 6 <= inliers).
Proof.
  assert (Hd : exists d,
             @detect cv0 default_config [reference 3 9] 0%nat = Some d
             /\ waferPresent d = true).
  { eexists. split; [vm_compute; reflexivity | reflexivity]. }
  destruct Hd as (d & Hd & Hw).
  apply (@hit_is_backed cv0 default_config [reference 3 9] 0%nat (keypoints 8)
           (seq 0 8) eq_refl d 6 Hd Hw eq_refl).
  lia.
Defined.

(** Two references at a bar of 20: the first has 5 inliers, the second 10. *)
Lemma best_is_the_maximum_witness :
  @fallback_loop cv0 (with_min_inliers default_config (Some 20)) (keypoints 8)
    (seq 0 8) [reference 7 10; reference 3 9] Best0
  = Some {| bestInliers := 10; bestQuad := Some (corners (reference 3 9)) |}
  /\ 5 <= bestInliers {| bestInliers := 10;
                         bestQuad := Some (corners (reference 3 9)) |}
  /\ 10 <= bestInliers {| bestInliers := 10;
                          bestQuad := Some (corners (reference 3 9)) |}.
Proof.
  assert (Hloop : @fallback_loop cv0 (with_min_inliers default_config (Some 20))
                    (keypoints 8) (seq 0 8) [reference 7 10; reference 3 9] Best0
                  = Some {| bestInliers := 10;
                            bestQuad := Some (corners (reference 3 9)) |})
    by (vm_compute; reflexivity).
  split; [exact Hloop|]. split.
  - apply (@best_is_the_maximum cv0 (with_min_inliers default_config (Some 20))
             (keypoints 8) (seq 0 8) [reference 7 10; reference 3 9]
             {| bestInliers := 10; bestQuad := Some (corners (reference 3 9)) |}
             Hloop eq_refl (reference 7 10) 5).
    + left. reflexivity.
    + vm_compute. reflexivity.
    + unfold fitted. do 4 eexists.
      split; [vm_compute; reflexivity|]. split; [vm_compute; reflexivity|].
      split; vm_compute; reflexivity.
  - apply (@best_is_the_maximum cv0 (with_min_inliers default_config (Some 20))
             (keypoints 8) (seq 0 8) [reference 7 10; reference 3 9]
             {| bestInliers := 10; bestQuad := Some (corners (reference 3 9)) |}
             Hloop eq_refl (reference 3 9) 10).
    + right. left. reflexivity.
    + vm_compute. reflexivity.
    + unfold fitted. do 4 eexists.
      split; [vm_compute; reflexivity|]. split; [vm_compute; reflexivity|].
      split; vm_compute; reflexivity.
Defined.

Lemma custom_loader_stops_at_rejection_witness :
  @_processRefFile cv0 default_config broken_file = Rejected
  /\ @loadCustomReferenceImages cv0 default_config
       ([file 3; file 4] ++ broken_file :: [file 7])
     = (@loadReferenceImages cv0 default_config [file 3; file 4], false).
Proof.
  split; [reflexivity|].
  apply (@custom_loader_stops_at_rejection cv0 default_config [file 3; file 4]
           [file 7] broken_file); [|reflexivity].
  intros g [<- | [<- | []]]; vm_compute; discriminate.
Defined.

Lemma loaded_reference_is_complete_witness :
  exists f p,
    In f [file 3] /\ picture f = Some p
    /\ name (reference 3 9) = file_name f
    /\ @detectAndCompute cv0 (gray p) = Some (kp (reference 3 9), des (reference 3 9))
    /\ 8 <= Z.of_nat (length (des (reference 3 9)))
    /\ (exists t,
          @resize cv0 (gray p) (TMPL_SIZE default_config) = Some t
          /\ tmpl (reference 3 9)
             = Some (if EDGE_TMPL default_config then @Canny cv0 t else t))
    /\ @allocMat cv0 (PROC_H default_config - TMPL_SIZE default_config + 1)
         (PROC_W default_config - TMPL_SIZE default_config + 1) = true
    /\ res (reference 3 9)
       = Some (PROC_H default_config - TMPL_SIZE default_config + 1,
               PROC_W default_config - TMPL_SIZE default_config + 1)
    /\ length (corners (reference 3 9)) = 8%nat
    /\ dataUrl (reference 3 9) = pic_dataUrl p.
Proof.
  apply (@loaded_reference_is_complete cv0 default_config [file 3] (reference 3 9)).
  left. vm_compute. left. reflexivity.
Defined.

Lemma no_start_without_references_witness :
  @loadReferenceImages cv0 default_config [file 4; broken_file] = []
  /\ startDetection (started default_config []) true no_inputs
     = started default_config [].
Proof.
  apply (@no_start_without_references cv0 (started default_config []) true no_inputs
           [file 4; broken_file]).
  - intros f [<- | [<- | []]].
    + left. exact file4_few_descriptors.
    + right. reflexivity.
  - vm_compute. reflexivity.
Defined.

Lemma first_cycle_decides_alone_witness :
  passed (cycle (startDetection (started default_config [reference 7 10]) true
                   no_inputs) 0%nat (of_Z 41) (of_Z 42)) = false
  /\ passed (cycle (startDetection (started default_config [reference 3 9]) true
                      no_inputs) 0%nat (of_Z 41) (of_Z 42)) = true.
Proof.
  assert (Hd : exists d,
             @detect cv0 default_config [reference 7 10] 0%nat = Some d
             /\ waferPresent d = false).
  { eexists. split; [vm_compute; reflexivity | reflexivity]. }
  destruct Hd as (d & Hd & Hw).
  split.
  - rewrite <- Hw.
    apply (@first_cycle_decides_alone cv0 (started default_config [reference 7 10])
             no_inputs 0%nat (of_Z 41) (of_Z 42) d);
      [discriminate | exact Hd | reflexivity].
  - vm_compute. reflexivity.
Defined.

Lemma auto_exit_after_hold_witness :
  isRunning (cycle passed_at_41 6%nat (of_Z 1200) (of_Z 1201)) = false
  /\ isRunning (cycle passed_at_41 6%nat (of_Z 900) (of_Z 901)) = true.
Proof.
  assert (Hd : exists d, @detect cv0 auto_exit_on [reference 3 9] 6%nat = Some d).
  { eexists. vm_compute. reflexivity. }
  destruct Hd as (d & Hd).
  split.
  - rewrite (proj1 (@auto_exit_after_hold cv0 passed_at_41 6%nat (of_Z 1200)
                      (of_Z 1201) (of_Z 41) d Hd eq_refl eq_refl eq_refl eq_refl
                      eq_refl)).
    vm_compute. reflexivity.
  - vm_compute. reflexivity.
Defined.
